(** * AppInsightsQueryService: query building and result reshaping

    A shallow embedding of
    [src/app/services/app-insights/app-insights-query.service.ts]
    and the properties its specification states about it.

    Conventions of the embedding.
    - A JavaScript call either returns a value or throws: [Completion].
    - A plain JavaScript object used as a map is the list of its own
      properties in creation order ([JsObject.t]); [Object.keys] enumerates
      them as ECMAScript's OrdinaryOwnPropertyKeys does: array-index names
      in ascending numeric order first, the other names in creation order.
      Names inherited from [Object.prototype] are visible to [in];
      assigning to the name [__proto__] is outside the model.
    - A [Date] is its time value, a whole number of milliseconds: the
      [Date] constructor stores [TimeClip] of its argument, which drops the
      fractional part (ToIntegerOrInfinity).  Invalid dates are outside the
      model.
    - A window length is a whole number of minutes ([Z]); the arithmetic of
      the interval calculator is carried out on exact rationals ([Q]), which
      is what the double-precision computation yields for whole windows of
      realistic size.  The same expression is also given in IEEE doubles
      ([intervalInSeconds_double]), for windows that are not whole.
      Numbers inside payloads are whole ([Z]); the service carries them
      through unchanged.
    - Lookups [o[name]] are own-property lookups; they agree with
      JavaScript for every name that is not inherited from
      [Object.prototype]. *)

From Stdlib Require Import PrimFloat.
From Stdlib Require Floats Uint63.
From Stdlib Require Import ZArith QArith Qround List String Ascii Bool Lia.
From Stdlib Require Import DecimalString Sorted Permutation.
Import ListNotations.

Local Open Scope string_scope.
Local Open Scope Z_scope.

(* ================================================================== *)
(** ** Completions: a call returns or throws *)

Inductive JsError : Type :=
| TypeError.

Inductive Completion (A : Type) : Type :=
| Normal (a : A)
| Throw (e : JsError).

Arguments Normal {A} a.
Arguments Throw {A} e.

Definition bind {A B : Type} (c : Completion A) (k : A -> Completion B)
  : Completion B :=
  match c with
  | Normal a => k a
  | Throw e => Throw e
  end.

Notation "x <- c ;; k" := (bind c (fun x => k))
  (at level 61, c at next level, right associativity).

(** [for (const x of xs) { acc = body(acc, x) }], stopping at the first throw. *)
Fixpoint forOf {A S : Type} (body : S -> A -> Completion S) (xs : list A) (s : S)
  : Completion S :=
  match xs with
  | [] => Normal s
  | x :: rest => s' <- body s x ;; forOf body rest s'
  end.

(** [xs.map(f)] where [f] may throw. *)
Fixpoint mapC {A B : Type} (f : A -> Completion B) (xs : list A)
  : Completion (list B) :=
  match xs with
  | [] => Normal []
  | x :: rest => y <- f x ;; ys <- mapC f rest ;; Normal (y :: ys)
  end.

(* ================================================================== *)
(** ** Numbers as text *)

(** [String(n)] for a whole number [n], as a template literal renders it
    (below [10^21], where JavaScript switches to exponent notation). *)
Definition toString (n : Z) : string := NilZero.string_of_int (Z.to_int n).

(** The array index that a property name denotes, if any: the name is the
    canonical decimal numeral of a whole number below [2^32 - 1]. *)
Definition arrayIndex (name : string) : option N :=
  match NilEmpty.uint_of_string name with
  | Some u =>
      let n := N.of_uint u in
      if (String.eqb (toString (Z.of_N n)) name && (n <=? 4294967294)%N)%bool
      then Some n else None
  | None => None
  end.

(* ================================================================== *)
(** ** Plain objects used as maps *)

Module JsObject.

(** Own properties, oldest first. *)
Definition t (V : Type) : Type := list (string * V).

Definition empty {V : Type} : t V := [].

Fixpoint get {V : Type} (o : t V) (name : string) : option V :=
  match o with
  | [] => None
  | (k, v) :: rest => if String.eqb k name then Some v else get rest name
  end.

Definition hasOwn {V : Type} (o : t V) (name : string) : bool :=
  match get o name with Some _ => true | None => false end.

(** [o[name] = v]: overwrite in place, or create the property last. *)
Fixpoint set {V : Type} (o : t V) (name : string) (v : V) : t V :=
  match o with
  | [] => [(name, v)]
  | (k, w) :: rest =>
      if String.eqb k name then (k, v) :: rest else (k, w) :: set rest name v
  end.

(** Property names every object literal inherits from [Object.prototype]. *)
Definition inherited : list string :=
  [ "constructor"; "hasOwnProperty"; "isPrototypeOf"; "propertyIsEnumerable";
    "toLocaleString"; "toString"; "valueOf"; "__proto__";
    "__defineGetter__"; "__defineSetter__"; "__lookupGetter__";
    "__lookupSetter__" ].

Definition isInherited (name : string) : bool :=
  existsb (String.eqb name) inherited.

(** [name in o]. *)
Definition has {V : Type} (o : t V) (name : string) : bool :=
  (hasOwn o name || isInherited name)%bool.

(** Names in creation order. *)
Definition created {V : Type} (o : t V) : list string := map fst o.

Fixpoint insertIndex (n : N) (sorted : list N) : list N :=
  match sorted with
  | [] => [n]
  | m :: rest => if (n <=? m)%N then n :: sorted else m :: insertIndex n rest
  end.

Definition sortIndices (l : list N) : list N :=
  fold_right insertIndex [] l.

Definition indexNames (names : list string) : list N :=
  flat_map (fun k => match arrayIndex k with Some n => [n] | None => [] end)
           names.

Definition otherNames (names : list string) : list string :=
  filter (fun k => match arrayIndex k with Some _ => false | None => true end)
         names.

(** OrdinaryOwnPropertyKeys restricted to string names. *)
Definition ownKeyOrder (names : list string) : list string :=
  map (fun n => toString (Z.of_N n)) (sortIndices (indexNames names))
  ++ otherNames names.

(** [Object.keys(o)]. *)
Definition keys {V : Type} (o : t V) : list string := ownKeyOrder (created o).

End JsObject.

(* ================================================================== *)
(** ** The metric catalog *)

Record MetricDefinition : Type := {
  appInsightsMetricId : string;
  segment : string;
}.

Definition metrics : JsObject.t MetricDefinition :=
  [ ("cpuUsage",
     {| appInsightsMetricId := "customMetrics/Cpu usage"; segment := "cloud/roleInstance" |});
    ("individualCpuUsage",
     {| appInsightsMetricId := "customMetrics/Cpu usage"; segment := "customDimensions/[CPU #]" |});
    ("gpuUsage",
     {| appInsightsMetricId := "customMetrics/Gpu usage"; segment := "cloud/roleInstance" |});
    ("individualGpuUsage",
     {| appInsightsMetricId := "customMetrics/Gpu usage"; segment := "customDimensions/[GPU #]" |});
    ("gpuMemory",
     {| appInsightsMetricId := "customMetrics/Gpu memory usage"; segment := "cloud/roleInstance" |});
    ("individualGpuMemory",
     {| appInsightsMetricId := "customMetrics/Gpu memory usage"; segment := "customDimensions/[GPU #]" |});
    ("memoryAvailable",
     {| appInsightsMetricId := "customMetrics/Memory available"; segment := "cloud/roleInstance" |});
    ("memoryUsed",
     {| appInsightsMetricId := "customMetrics/Memory used"; segment := "cloud/roleInstance" |});
    ("diskRead",
     {| appInsightsMetricId := "customMetrics/Disk read"; segment := "cloud/roleInstance" |});
    ("diskWrite",
     {| appInsightsMetricId := "customMetrics/Disk write"; segment := "cloud/roleInstance" |});
    ("diskUsed",
     {| appInsightsMetricId := "customMetrics/Disk usage"; segment := "customDimensions/Disk,cloud/roleInstance" |});
    ("diskFree",
     {| appInsightsMetricId := "customMetrics/Disk free"; segment := "customDimensions/Disk,cloud/roleInstance" |});
    ("networkRead",
     {| appInsightsMetricId := "customMetrics/Network read"; segment := "cloud/roleInstance" |});
    ("networkWrite",
     {| appInsightsMetricId := "customMetrics/Network write"; segment := "cloud/roleInstance" |}) ].

(** [metrics[id]] for a key that is not a name inherited from
    [Object.prototype]; [None] is [undefined]. *)
Definition metrics_at (id : string) : option MetricDefinition :=
  JsObject.get metrics id.

(* ================================================================== *)
(** ** Interval calculator *)

Definition numberOfPoints : Q := 1000.

(** [Math.ceil(timespan / numberOfPoints * 60 / 10) * 10], computed
    exactly.  The source computes in doubles; the two agree on whole
    windows of realistic size (see [double_agrees_on_whole_windows]). *)
Definition intervalInSeconds (timespan : Q) : Z :=
  Qceiling (timespan / numberOfPoints * 60 / 10) * 10.

(** [Math.ceil] on doubles: zeros, infinities and NaN are returned as they
    are, and so is a double without fractional part; a negative double
    above -1 gives -0. *)
Definition Math_ceil (x : PrimFloat.float) : PrimFloat.float :=
  match FloatOps.Prim2SF x with
  | SpecFloat.S754_finite negative m e =>
      if 0 <=? e then x
      else
        let q := Z.pos m / 2 ^ (- e) in
        if negative then PrimFloat.opp (PrimFloat.of_uint63 (Uint63.of_Z q))
        else if Z.pos m mod 2 ^ (- e) =? 0
             then PrimFloat.of_uint63 (Uint63.of_Z q)
             else PrimFloat.of_uint63 (Uint63.of_Z (q + 1))
  | _ => x
  end.

(** [Math.ceil(timespan / numberOfPoints * 60 / 10) * 10] in the IEEE
    double arithmetic of the source, for any window of type [number]. *)
Definition intervalInSeconds_double (timespan : PrimFloat.float) : PrimFloat.float :=
  (Math_ceil (timespan / 1000 * 60 / 10) * 10)%float.

(** The double that a whole number below [2^53] in magnitude is. *)
Definition doubleOfZ (z : Z) : PrimFloat.float :=
  if z <? 0 then PrimFloat.opp (PrimFloat.of_uint63 (Uint63.of_Z (- z)))
  else PrimFloat.of_uint63 (Uint63.of_Z z).

(** The rational that a finite double is. *)
Definition exactValue (x : PrimFloat.float) : Q :=
  match FloatOps.Prim2SF x with
  | SpecFloat.S754_finite negative m e =>
      let magnitude :=
        if 0 <=? e then inject_Z (Z.pos m * 2 ^ e)
        else Qmake (Z.pos m) (Z.to_pos (2 ^ (- e))) in
      if negative then Qopp magnitude else magnitude
  | _ => 0
  end.

Definition _computeInterval (timespan : Z) : string :=
  "PT" ++ toString (intervalInSeconds (inject_Z timespan)) ++ "S".

(* ================================================================== *)
(** ** Filter composer *)

(** The expression tree that [FilterBuilder] builds: [prop(name).eq(value)]
    and [and(left, right)]. *)
Inductive Filter : Type :=
| PropEq (name value : string)
| And (left right : Filter).

(** Truthiness of a string: only the empty string is falsy. *)
Definition truthy (s : string) : bool := negb (String.eqb s "").

(** [nodeId] is [None] for [null] or [undefined], both falsy. *)
Definition _buildFilter (poolId : string) (nodeId : option string) : Filter :=
  let poolFilter := PropEq "cloud/roleName" poolId in
  match nodeId with
  | Some node =>
      if truthy node then
        let nodeFilter := PropEq "cloud/roleInstance" node in
        And poolFilter nodeFilter
      else poolFilter
  | None => poolFilter
  end.

(* ================================================================== *)
(** ** Query builder *)

Record QueryParameters : Type := {
  aggregation : string;
  metricId : string;
  filter : string;
  interval : string;
  timespan : string;
  q_segment : string;
  top : Z;
}.

Record QueryDescriptor : Type := {
  id : string;
  parameters : QueryParameters;
}.

Section QueryBuilder.

(** [Filter.toOData()] of [@batch-flask/core]: the serializer of the
    filter expression library, which this service treats as opaque. *)
Variable toOData : Filter -> string.

Definition _buildQuery (poolId : string) (nodeId : option string)
           (timespanInMinutes : Z) : Completion (list QueryDescriptor) :=
  let timespan := "PT" ++ toString timespanInMinutes ++ "M" in
  let interval := _computeInterval timespanInMinutes in
  mapC (fun id =>
          match metrics_at id with
          | Some metric =>
              Normal {| id := id;
                        parameters :=
                          {| aggregation := "avg";
                             metricId := appInsightsMetricId metric;
                             filter := toOData (_buildFilter poolId nodeId);
                             interval := interval;
                             timespan := timespan;
                             q_segment := segment metric;
                             top := 1000 |} |}
          | None => Throw TypeError
          end)
       (JsObject.keys metrics).

(** The query that [getPoolPerformance] posts. *)
Definition buildPoolQuery (poolId : string) (lastNMinutes : Z) :=
  _buildQuery poolId None lastNMinutes.

(** The query that [getNodePerformance] posts. *)
Definition buildNodeQuery (poolId nodeId : string) (lastNMinutes : Z) :=
  _buildQuery poolId (Some nodeId) lastNMinutes.

End QueryBuilder.

(* ================================================================== *)
(** ** Raw payload *)

(** The JSON values the reshaper reads; a missing field is [JUndefined]. *)
#[warnings="-register-all"] Inductive JValue : Type :=
| JUndefined
| JNull
| JNumber (n : Z)
| JString (s : string)
| JObject (fields : list (string * JValue)).

(** [o[name]] on a parsed JSON object, for a name that is not inherited
    from [Object.prototype]; a missing field reads [undefined]. *)
Definition field (o : JsObject.t JValue) (name : string) : JValue :=
  match JsObject.get o name with
  | Some v => v
  | None => JUndefined
  end.

(** [v.avg]: reading a member of [undefined] or [null] throws. *)
Definition avg (v : JValue) : Completion JValue :=
  match v with
  | JUndefined | JNull => Throw TypeError
  | JObject fields => Normal (field fields "avg")
  | JNumber _ | JString _ => Normal JUndefined
  end.

(** ToPropertyKey: the property name a value used as a key denotes. *)
Definition toPropertyKey (v : JValue) : string :=
  match v with
  | JUndefined => "undefined"
  | JNull => "null"
  | JNumber n => toString n
  | JString s => s
  | JObject _ => "[object Object]"
  end.

(** A time bucket.  [start] and [end_] are the time values of
    [new Date(segment.start)] and [new Date(segment.end)]; [seg_value] is
    the bucket's own aggregate (flat metrics) and [seg_nested] its field
    [segments], the nested per-device aggregates (individual-device
    metrics): [None] when the bucket has no such array. *)
Record Segment : Type := {
  start : Z;
  end_ : Z;
  seg_value : JValue;
  seg_nested : option (list (JsObject.t JValue));
}.

(** The sub-aggregates of a bucket: those of its nested array, none when
    the array is absent. *)
Definition seg_segments (segment : Segment) : list (JsObject.t JValue) :=
  match seg_nested segment with
  | Some individualSegments => individualSegments
  | None => []
  end.

(** [metricResult.body.value]. *)
Record AppInsightsMetricBody : Type := {
  segments : list Segment;
}.

Record MetricResult : Type := {
  mr_id : string;
  body_value : AppInsightsMetricBody;
}.

(* ================================================================== *)
(** ** Result reshaper *)

(** [PerformanceMetric]. *)
Record Sample : Type := {
  time : Z;
  value : JValue;
}.

(** [new Date((end.getTime() + start.getTime()) / 2)]: the sum of two time
    values halved, of which the [Date] constructor keeps the whole part. *)
Definition _getDateAvg (start end_ : Z) : Z :=
  Z.quot (end_ + start) 2.

(** [metrics[id].appInsightsMetricId], for a key that is not a name
    inherited from [Object.prototype]: reading a member of [undefined]
    throws. *)
Definition _getAppInsightsMetricId (id : string) : Completion string :=
  match metrics_at id with
  | Some metric => Normal (appInsightsMetricId metric)
  | None => Throw TypeError
  end.

(** [usages[deviceId].push(sample)]: only an own property holds an array. *)
Definition push (usages : JsObject.t (list Sample)) (deviceId : string)
           (sample : Sample) : Completion (JsObject.t (list Sample)) :=
  match JsObject.get usages deviceId with
  | Some series => Normal (JsObject.set usages deviceId (series ++ [sample])%list)
  | None => Throw TypeError
  end.

(** Body of the inner loop of [_processIndividualDeviceUsage]. *)
Definition addIndividualSegment (id deviceKey : string) (time : Z)
           (usages : JsObject.t (list Sample))
           (individualSegment : JsObject.t JValue)
  : Completion (JsObject.t (list Sample)) :=
  name <- _getAppInsightsMetricId id ;;
  value <- avg (field individualSegment name) ;;
  let deviceId := toPropertyKey (field individualSegment deviceKey) in
  let usages :=
    if negb (JsObject.has usages deviceId)
    then JsObject.set usages deviceId []
    else usages in
  push usages deviceId {| time := time; value := value |}.

(** Body of the outer loop of [_processIndividualDeviceUsage]; iterating
    over a missing [segment.segments] throws. *)
Definition addSegment (id deviceKey : string)
           (usages : JsObject.t (list Sample)) (segment : Segment)
  : Completion (JsObject.t (list Sample)) :=
  let time := _getDateAvg (start segment) (end_ segment) in
  match seg_nested segment with
  | Some individualSegments =>
      forOf (addIndividualSegment id deviceKey time) individualSegments usages
  | None => Throw TypeError
  end.

Definition _processIndividualDeviceUsage (id deviceKey : string)
           (segments : list Segment) : Completion (JsObject.t (list Sample)) :=
  forOf (addSegment id deviceKey) segments JsObject.empty.

(** What [_processMetrics] stores under a metric key: the per-device map of
    the fan-out, or whatever the flat processor returns. *)
Inductive Performance (T : Type) : Type :=
| PerDevice (usages : JsObject.t (list Sample))
| Segmented (series : T).

Arguments PerDevice {T} usages.
Arguments Segmented {T} series.

Section Reshaper.

(** [new AppInsightQueryResultProcessor(metric).process(data)] of
    [./query-result-processor]: the flat processor, a collaborator of
    this service. *)
Variable T : Type.
Variable process : option MetricDefinition -> AppInsightsMetricBody -> Completion T.

Definition _processSegmentedMetric (metricId : string)
           (segments : AppInsightsMetricBody) : Completion T :=
  let metric := metrics_at metricId in
  process metric segments.

(** Body of the loop of [_processMetrics]: the [switch] on the key, and the
    assignment [performances[id] = ...], which creates or overwrites the own
    property [id] for every [id] other than ["__proto__"]. *)
Definition processMetricResult (performances : JsObject.t (Performance T))
           (metricResult : MetricResult)
  : Completion (JsObject.t (Performance T)) :=
  let id := mr_id metricResult in
  let data := body_value metricResult in
  let segments := segments (body_value metricResult) in
  if String.eqb id "individualCpuUsage" then
    usages <- _processIndividualDeviceUsage id "customDimensions/CPU #" segments ;;
    Normal (JsObject.set performances id (PerDevice usages))
  else if (String.eqb id "individualGpuUsage"
           || String.eqb id "individualGpuMemory")%bool then
    usages <- _processIndividualDeviceUsage id "customDimensions/GPU #" segments ;;
    Normal (JsObject.set performances id (PerDevice usages))
  else
    series <- _processSegmentedMetric id data ;;
    Normal (JsObject.set performances id (Segmented series)).

Definition _processMetrics (data : list MetricResult)
  : Completion (JsObject.t (Performance T)) :=
  forOf processMetricResult data JsObject.empty.

End Reshaper.

Arguments _processSegmentedMetric {T} process metricId segments.
Arguments processMetricResult {T} process performances metricResult.
Arguments _processMetrics {T} process data.

(** Modelled from the spec: what the flat-series algorithm yields, a
    PerformanceSeries or the surfaced failure MalformedPayloadError with the
    offending metric and bucket index. *)
Inductive FlatOutcome : Type :=
| PerformanceSeries (samples : list Sample)
| MalformedPayloadError (metric : option MetricDefinition) (bucketIndex : nat).

(** Modelled from the spec: the samples of the buckets from index [index]
    on, or the index of the first bucket that lacks its averaged value. *)
Fixpoint flatSamples (index : nat) (buckets : list Segment) : list Sample + nat :=
  match buckets with
  | [] => inl []
  | bucket :: rest =>
      match seg_value bucket with
      | JUndefined => inr index
      | v =>
          match flatSamples (S index) rest with
          | inl samples =>
              inl ({| time := _getDateAvg (start bucket) (end_ bucket);
                      value := v |} :: samples)
          | inr failing => inr failing
          end
      end
  end.

(** Modelled from the spec: the flat-series algorithm of
    [AppInsightQueryResultProcessor.process], which is not part of this
    file's source.  One sample per bucket, in response order, at the bucket
    midpoint (computed as this service computes midpoints), holding the
    bucket's averaged value; a bucket that lacks its averaged value is a
    surfaced failure, neither dropped nor turned into zero. *)
Definition flatSeries (metric : option MetricDefinition)
           (data : AppInsightsMetricBody) : FlatOutcome :=
  match flatSamples 0 (segments data) with
  | inl samples => PerformanceSeries samples
  | inr failing => MalformedPayloadError metric failing
  end.

(** The flat processor of the specification as the collaborator of this
    service: its outcome is handed back as a value. *)
Definition flatProcessor (metric : option MetricDefinition)
           (data : AppInsightsMetricBody) : Completion FlatOutcome :=
  Normal (flatSeries metric data).

(* ================================================================== *)

(** * Vocabulary of the statements *)

(** The rounding the specification names: the least multiple of 10 that is
    at least [n]. *)
Definition roundUpToMultipleOf10 (n : Z) : Z := (n + 9) / 10 * 10.

(** A serializer in the style of the filter expression library, for the
    statements that need a concrete one. *)
Fixpoint renderOData (f : Filter) : string :=
  match f with
  | PropEq name value => name ++ " eq '" ++ value ++ "'"
  | And l r => renderOData l ++ " and " ++ renderOData r
  end.

(** The descriptor built for one catalog entry. *)
Definition descriptorFor (toOData : Filter -> string) (poolId : string)
           (nodeId : option string) (w : Z)
           (entry : string * MetricDefinition) : QueryDescriptor :=
  {| id := fst entry;
     parameters :=
       {| aggregation := "avg";
          metricId := appInsightsMetricId (snd entry);
          filter := toOData (_buildFilter poolId nodeId);
          interval := "PT" ++ toString (intervalInSeconds (inject_Z w)) ++ "S";
          timespan := "PT" ++ toString w ++ "M";
          q_segment := segment (snd entry);
          top := 1000 |} |}.

(** The keys the specification designates as individual-device metrics. *)
Definition individualDeviceKeys : list string :=
  [ "individualCpuUsage"; "individualGpuUsage"; "individualGpuMemory" ].

(** [individualSegment[this._getAppInsightsMetricId(id)].avg]. *)
Definition readAvg (id : string) (sub : JsObject.t JValue) : Completion JValue :=
  name <- _getAppInsightsMetricId id ;; avg (field sub name).

(** The device a sub-aggregate is filed under. *)
Definition deviceOf (deviceKey : string) (sub : JsObject.t JValue) : string :=
  toPropertyKey (field sub deviceKey).

(** The value a sub-aggregate contributes, when it can be read. *)
Definition valueOf (id : string) (sub : JsObject.t JValue) : JValue :=
  match readAvg id sub with
  | Normal v => v
  | Throw _ => JUndefined
  end.

Definition sampleOf (id : string) (time : Z) (sub : JsObject.t JValue) : Sample :=
  {| time := time; value := valueOf id sub |}.

(** A sub-aggregate the fan-out can process: its averaged value can be read
    and its device is not a name every object inherits. *)
Definition wellFormed (id deviceKey : string) (sub : JsObject.t JValue) : bool :=
  match readAvg id sub with
  | Normal _ => negb (JsObject.isInherited (deviceOf deviceKey sub))
  | Throw _ => false
  end.

(** Filing one reading: append to the device's series, creating it last. *)
Definition file (usages : JsObject.t (list Sample)) (reading : string * Sample)
  : JsObject.t (list Sample) :=
  match JsObject.get usages (fst reading) with
  | Some series => JsObject.set usages (fst reading) (series ++ [snd reading])%list
  | None => (usages ++ [(fst reading, [snd reading])])%list
  end.

(** The readings of a bucket and of a response, in response order. *)
Definition readingsOf (id deviceKey : string) (bucket : Segment)
  : list (string * Sample) :=
  map (fun sub => (deviceOf deviceKey sub,
                   sampleOf id (_getDateAvg (start bucket) (end_ bucket)) sub))
      (seg_segments bucket).

Definition readings (id deviceKey : string) (buckets : list Segment)
  : list (string * Sample) :=
  flat_map (readingsOf id deviceKey) buckets.

(** The distinct names of a list, each at its first occurrence. *)
Fixpoint firstSeen (names : list string) : list string :=
  match names with
  | [] => []
  | n :: rest => n :: List.filter (fun m => negb (String.eqb m n)) (firstSeen rest)
  end.

(** The samples a device contributes: bucket by bucket, only where the
    device occurs. *)
Definition seriesOf (id deviceKey dev : string) (buckets : list Segment)
  : list Sample :=
  flat_map (fun bucket =>
              map (sampleOf id (_getDateAvg (start bucket) (end_ bucket)))
                  (List.filter (fun sub => String.eqb (deviceOf deviceKey sub) dev)
                               (seg_segments bucket)))
           buckets.

(** The series a device holds so far. *)
Definition held (usages : JsObject.t (list Sample)) (dev : string) : list Sample :=
  match JsObject.get usages dev with Some series => series | None => [] end.

(** The samples filed under a device among a list of readings. *)
Definition sightings (dev : string) (rs : list (string * Sample)) : list Sample :=
  map snd (List.filter (fun r => String.eqb (fst r) dev) rs).

(** Names not yet among [seen]. *)
Definition unseen (seen : list string) (name : string) : bool :=
  negb (existsb (String.eqb name) seen).

(** A per-device sub-aggregate as the service receives it: the averaged
    value under the upstream metric identifier, the device under the device
    dimension. *)
Definition deviceAggregate (name : string) (average : Z) (deviceKey device : string)
  : JsObject.t JValue :=
  [ (name, JObject [("avg", JNumber average)]); (deviceKey, JString device) ].

(** A bucket of an individual-device metric: nested sub-aggregates, no
    aggregate of its own. *)
Definition bucketOf (start end_ : Z) (subs : list (JsObject.t JValue)) : Segment :=
  {| start := start; end_ := end_; seg_value := JUndefined; seg_nested := Some subs |}.

(** A bucket of a flat metric: an aggregate of its own, no nested array. *)
Definition flatBucket (start end_ : Z) (v : Z) : Segment :=
  {| start := start; end_ := end_; seg_value := JNumber v; seg_nested := None |}.

(** Whether a bucket has its nested array of sub-aggregates. *)
Definition hasNested (bucket : Segment) : bool :=
  match seg_nested bucket with Some _ => true | None => false end.

(** Whether the fan-out can process a response: every bucket has its nested
    array and every sub-aggregate is well-formed. *)
Definition allWellFormed (id deviceKey : string) (buckets : list Segment) : bool :=
  forallb (fun bucket =>
             hasNested bucket
             && forallb (wellFormed id deviceKey) (seg_segments bucket))%bool
          buckets.

(** The sub-aggregates of a device, each with the bucket it lies in, in
    response order. *)
Definition occurrences (deviceKey dev : string) (buckets : list Segment)
  : list (Segment * JsObject.t JValue) :=
  flat_map (fun bucket =>
              map (pair bucket)
                  (List.filter (fun sub => String.eqb (deviceOf deviceKey sub) dev)
                               (seg_segments bucket)))
           buckets.

(** Whether the double computation of the interval agrees with the exact
    one on a whole window, and on [n] whole windows from [from] on. *)
Definition agreesOn (w : Z) : bool :=
  PrimFloat.eqb (intervalInSeconds_double (doubleOfZ w))
                (doubleOfZ (10 * ((3 * w + 499) / 500))).

Fixpoint agreesFrom (n : nat) (from : Z) : bool :=
  match n with
  | O => true
  | S k => agreesOn from && agreesFrom k (from + 1)
  end.

(** The number of samples held by the series of an object. *)
Definition totalSamples (usages : JsObject.t (list Sample)) : nat :=
  list_sum (map (fun entry => List.length (snd entry)) usages).

(** The midpoint times of the buckets of a response, in response order. *)
Definition midpoints (buckets : list Segment) : list Z :=
  map (fun bucket => _getDateAvg (start bucket) (end_ bucket)) buckets.

(** No own property bears a name that every object inherits. *)
Definition ownNamesFresh {V : Type} (o : JsObject.t V) : Prop :=
  Forall (fun k => JsObject.isInherited k = false) (JsObject.created o).

(** The value the loop body of [_processMetrics] stores under the key of a
    metric result: the right-hand side of [performances[id] = ...]. *)
Definition performanceOf {T : Type}
           (process : option MetricDefinition -> AppInsightsMetricBody -> Completion T)
           (metricResult : MetricResult) : Completion (Performance T) :=
  let id := mr_id metricResult in
  if String.eqb id "individualCpuUsage" then
    usages <- _processIndividualDeviceUsage id "customDimensions/CPU #"
                (segments (body_value metricResult)) ;;
    Normal (PerDevice usages)
  else if (String.eqb id "individualGpuUsage"
           || String.eqb id "individualGpuMemory")%bool then
    usages <- _processIndividualDeviceUsage id "customDimensions/GPU #"
                (segments (body_value metricResult)) ;;
    Normal (PerDevice usages)
  else
    series <- _processSegmentedMetric process id (body_value metricResult) ;;
    Normal (Segmented series).

(** A response that answers a query: one metric result per descriptor, under
    the descriptor's key, in request order. *)
Definition answers (data : list MetricResult) (query : list QueryDescriptor) : Prop :=
  map mr_id data = map id query.

(* ================================================================== *)
(** * The model on sample inputs *)

Example toString_samples :
  toString 0 = "0" /\ toString 100 = "100" /\ toString (-60) = "-60".
Proof. repeat split; reflexivity. Qed.

Example arrayIndex_samples :
  arrayIndex "0" = Some 0%N /\ arrayIndex "17" = Some 17%N /\
  arrayIndex "01" = None /\ arrayIndex "" = None /\
  arrayIndex "cpuUsage" = None /\ arrayIndex "4294967295" = None.
Proof. repeat split; vm_compute; reflexivity. Qed.

Example keys_samples :
  JsObject.keys [("b", 1); ("1", 2); ("a", 3); ("0", 4)] = ["0"; "1"; "b"; "a"].
Proof. vm_compute. reflexivity. Qed.

Example computeInterval_samples :
  _computeInterval 100 = "PT10S" /\ _computeInterval 1440 = "PT90S" /\
  _computeInterval 0 = "PT0S".
Proof. repeat split; vm_compute; reflexivity. Qed.

(* ================================================================== *)
(** * Properties of the interval calculator *)

Section Ceiling.

Local Open Scope Q_scope.

Lemma Qceiling_le_iff (y : Q) (k : Z) : (Qceiling y <= k)%Z <-> y <= inject_Z k.
Proof.
  split; intros H.
  - apply Qle_trans with (inject_Z (Qceiling y)).
    + apply Qle_ceiling.
    + rewrite <- Zle_Qle. exact H.
  - assert (L : inject_Z (Qceiling y - 1) < inject_Z k).
    { apply Qlt_le_trans with y; [apply Qceiling_lt | exact H]. }
    rewrite <- Zlt_Qlt in L. lia.
Qed.

Lemma Qdiv10_le_iff (x : Q) (k : Z) : x / 10 <= inject_Z k <-> x <= inject_Z (10 * k).
Proof.
  rewrite inject_Z_mult.
  split; intros H.
  - setoid_replace x with (x / 10 * 10) by (field; discriminate).
    setoid_replace (inject_Z 10 * inject_Z k) with (inject_Z k * 10)
      by (change (inject_Z 10) with 10; ring).
    apply Qmult_le_compat_r; [exact H | discriminate].
  - apply Qle_shift_div_r; [reflexivity |].
    setoid_replace (inject_Z k * 10) with (inject_Z 10 * inject_Z k)
      by (change (inject_Z 10) with 10; ring).
    exact H.
Qed.

(** The expression of the source groups as [(timespan / 1000 * 60) / 10]. *)
Lemma Qceiling_div10 (x : Q) : Qceiling (x / 10) = ((Qceiling x + 9) / 10)%Z.
Proof.
  apply Z.le_antisymm.
  - apply Qceiling_le_iff, Qdiv10_le_iff, Qceiling_le_iff.
    pose proof (Z.mul_div_le (Qceiling x + 9) 10 ltac:(lia)).
    pose proof (Z.mod_pos_bound (Qceiling x + 9) 10 ltac:(lia)).
    pose proof (Z.div_mod (Qceiling x + 9) 10 ltac:(lia)).
    lia.
  - apply Z.lt_succ_r, Z.div_lt_upper_bound; [lia |].
    assert (H : (Qceiling x <= 10 * Qceiling (x / 10))%Z).
    { apply Qceiling_le_iff, Qdiv10_le_iff, Qceiling_le_iff. lia. }
    lia.
Qed.

Lemma scaled_window_pos (w : Q) : 0 < w -> 0 < w / numberOfPoints * 60.
Proof.
  intros H. unfold numberOfPoints.
  apply Qmult_lt_0_compat; [| reflexivity].
  apply Qlt_shift_div_l; [reflexivity |].
  setoid_replace (0 * 1000) with 0 by ring. exact H.
Qed.

Lemma scaled_window_mono (w1 w2 : Q) :
  w1 <= w2 -> w1 / numberOfPoints * 60 / 10 <= w2 / numberOfPoints * 60 / 10.
Proof.
  intros H. unfold numberOfPoints, Qdiv.
  repeat (apply Qmult_le_compat_r; [| discriminate]).
  exact H.
Qed.

End Ceiling.

(** The exact interval of a positive window: the least multiple of 10 that
    is at least [w / 1000 * 60]. *)
Lemma interval_is_least_multiple (w : Q) :
  (0 < w)%Q ->
  intervalInSeconds w = roundUpToMultipleOf10 (Qceiling (w / 1000 * 60)) /\
  intervalInSeconds w mod 10 = 0 /\
  10 <= intervalInSeconds w /\
  (w / 1000 * 60 <= inject_Z (intervalInSeconds w))%Q /\
  (forall m : Z, m mod 10 = 0 -> (w / 1000 * 60 <= inject_Z m)%Q ->
                 intervalInSeconds w <= m).
Proof.
  intros Hw.
  pose proof (scaled_window_pos w Hw) as Hpos.
  unfold intervalInSeconds, roundUpToMultipleOf10, numberOfPoints in *.
  set (x := (w / 1000 * 60)%Q) in *.
  assert (Hc : 1 <= Qceiling (x / 10)).
  { destruct (Z_le_gt_dec (Qceiling (x / 10)) 0) as [H0 | H0]; [| lia].
    apply Qceiling_le_iff, Qdiv10_le_iff in H0.
    exfalso. apply (Qlt_irrefl 0%Q).
    apply Qlt_le_trans with x; [exact Hpos | exact H0]. }
  repeat split.
  - now rewrite Qceiling_div10.
  - apply Z.mod_mul. lia.
  - lia.
  - rewrite Z.mul_comm. apply Qdiv10_le_iff, Qle_ceiling.
  - intros m Hm Hx.
    apply Z.mod_divide in Hm; [| lia]. destruct Hm as [k ->].
    rewrite (Z.mul_comm k 10) in Hx.
    apply Qdiv10_le_iff, Qceiling_le_iff in Hx. lia.
Qed.

Lemma scaled_window (w : Q) : (w / numberOfPoints * 60 / 10 == w * (3 # 500))%Q.
Proof. unfold numberOfPoints. field. Qed.

Lemma interval_of_whole_window (w : Z) :
  intervalInSeconds (inject_Z w) = 10 * ((3 * w + 499) / 500).
Proof.
  unfold intervalInSeconds.
  assert (Hy : (inject_Z w / numberOfPoints * 60 / 10 == (3 * w) # 500)%Q).
  { rewrite scaled_window. unfold inject_Z, Qeq, Qmult.
    cbn [Qnum Qden]. change (Z.pos (1 * 500)) with 500. lia. }
  rewrite Hy. unfold Qceiling, Qfloor, Qopp. cbn [Qnum Qden].
  pose proof (Z.div_mod (- (3 * w)) 500 ltac:(lia)) as H1.
  pose proof (Z.mod_pos_bound (- (3 * w)) 500 ltac:(lia)) as H2.
  pose proof (Z.div_mod (3 * w + 499) 500 ltac:(lia)) as H3.
  pose proof (Z.mod_pos_bound (3 * w + 499) 500 ltac:(lia)) as H4.
  lia.
Qed.

Lemma agreesFrom_spec (n : nat) (from : Z) :
  agreesFrom n from = true ->
  forall w, from <= w < from + Z.of_nat n -> agreesOn w = true.
Proof.
  revert from. induction n as [| n IH]; intros from H w Hw; [lia |].
  simpl in H. apply andb_true_iff in H. destruct H as [Hfrom Hrest].
  destruct (Z.eq_dec w from) as [-> | Hne]; [exact Hfrom |].
  apply (IH (from + 1) Hrest). lia.
Qed.

(** On every whole window from one minute to 31 days the double arithmetic
    of the source gives exactly the interval computed on rationals. *)
Lemma double_agrees_on_whole_windows (w : Z) :
  1 <= w <= 44640 ->
  PrimFloat.eqb (intervalInSeconds_double (doubleOfZ w))
                (doubleOfZ (intervalInSeconds (inject_Z w))) = true.
Proof.
  intros Hw. rewrite interval_of_whole_window.
  apply (agreesFrom_spec (Z.to_nat 44640) 1); [vm_compute; reflexivity | lia].
Qed.

(** C1, as stated, fails on windows that are not whole, where the double
    arithmetic of the source rounds: the least positive double gives an
    interval of 0 seconds, and the double 833.3333333333334 gives 50
    seconds, less than its [w / 1000 * 60]. *)
Lemma C1_fractional_window_breaks_the_bounds :
  PrimFloat.ltb 0 0x1p-1074 = true /\
  intervalInSeconds_double 0x1p-1074 = 0%float /\
  PrimFloat.ltb 0 0x1.a0aaaaaaaaaabp+9 = true /\
  intervalInSeconds_double 0x1.a0aaaaaaaaaabp+9 = 50%float /\
  (inject_Z 50 < exactValue 0x1.a0aaaaaaaaaabp+9 / 1000 * 60)%Q.
Proof.
  repeat split; vm_compute; reflexivity.
Qed.

(** C1, amended.  For every window of a whole number [w > 0] of minutes
    the interval calculator returns ["PT<s>S"] where [s] is
    [roundUpToMultipleOf10 (ceil (w / 1000 * 60))]: a multiple of 10, at
    least 10, at least [w / 1000 * 60], and the least such multiple.  This
    [s] is what the double arithmetic of the source computes, as checked
    for every window up to 31 days. *)
Theorem C1_interval_is_least_multiple_of_10 (w : Z) :
  0 < w ->
  exists s : Z,
    _computeInterval w = "PT" ++ toString s ++ "S" /\
    s = roundUpToMultipleOf10 (Qceiling (inject_Z w / 1000 * 60)) /\
    s mod 10 = 0 /\
    10 <= s /\
    (inject_Z w / 1000 * 60 <= inject_Z s)%Q /\
    (forall m : Z, m mod 10 = 0 -> (inject_Z w / 1000 * 60 <= inject_Z m)%Q ->
                   s <= m) /\
    (w <= 44640 ->
     PrimFloat.eqb (intervalInSeconds_double (doubleOfZ w)) (doubleOfZ s) = true).
Proof.
  intros Hw.
  assert (Hq : (0 < inject_Z w)%Q).
  { change 0%Q with (inject_Z 0). now rewrite <- Zlt_Qlt. }
  destruct (interval_is_least_multiple (inject_Z w) Hq) as (H1 & H2 & H3 & H4 & H5).
  exists (intervalInSeconds (inject_Z w)).
  split; [reflexivity |].
  split; [exact H1 |]. split; [exact H2 |]. split; [exact H3 |].
  split; [exact H4 |]. split; [exact H5 |].
  intros Hle. apply double_agrees_on_whole_windows. lia.
Qed.

Lemma C1_interval_witness :
  exists s : Z,
    _computeInterval 100 = "PT" ++ toString s ++ "S" /\
    s mod 10 = 0 /\ 10 <= s /\
    PrimFloat.eqb (intervalInSeconds_double (doubleOfZ 100)) (doubleOfZ s) = true.
Proof.
  destruct (C1_interval_is_least_multiple_of_10 100 ltac:(lia))
    as (s & Hs & _ & Hmod & Hmin & _ & _ & Hdouble).
  exists s. split; [exact Hs |]. split; [exact Hmod |]. split; [exact Hmin |].
  apply Hdouble. lia.
Defined.

(** C9.  The interval does not decrease when the window grows. *)
Theorem C9_interval_monotone (w1 w2 : Q) :
  (0 < w1)%Q -> (w1 <= w2)%Q -> intervalInSeconds w1 <= intervalInSeconds w2.
Proof.
  intros _ Hle. unfold intervalInSeconds.
  apply Z.mul_le_mono_nonneg_r; [lia |].
  apply Qceiling_resp_le, scaled_window_mono, Hle.
Qed.

Lemma C9_interval_monotone_witness :
  intervalInSeconds 100 <= intervalInSeconds 1440.
Proof.
  apply (C9_interval_monotone 100 1440); [reflexivity | discriminate].
Defined.

(* ================================================================== *)
(** * Properties of the filter composer and the query builder *)

(** No catalog key is an array index, so [Object.keys] lists the catalog in
    the order of its declaration. *)
Lemma keys_metrics : JsObject.keys metrics = map fst metrics.
Proof. vm_compute. reflexivity. Qed.

Section QueryBuilderFacts.

Variable toOData : Filter -> string.

(** The builder never throws: every key it maps over is in the catalog. *)
Lemma buildQuery_returns (poolId : string) (nodeId : option string) (w : Z) :
  _buildQuery toOData poolId nodeId w
  = Normal (map (descriptorFor toOData poolId nodeId w) metrics).
Proof.
  unfold _buildQuery, _computeInterval, descriptorFor.
  rewrite keys_metrics.
  generalize (toOData (_buildFilter poolId nodeId)) as f.
  generalize ("PT" ++ toString (intervalInSeconds (inject_Z w)) ++ "S") as i.
  generalize ("PT" ++ toString w ++ "M") as t.
  intros t i f. reflexivity.
Qed.

Lemma descriptorFor_fields (poolId : string) (nodeId : option string) (w : Z) :
  Forall (fun d =>
            top (parameters d) = 1000 /\
            aggregation (parameters d) = "avg" /\
            timespan (parameters d) = "PT" ++ toString w ++ "M" /\
            interval (parameters d) = _computeInterval w /\
            filter (parameters d) = toOData (_buildFilter poolId nodeId))
         (map (descriptorFor toOData poolId nodeId w) metrics).
Proof.
  apply Forall_forall. intros d Hd.
  apply in_map_iff in Hd. destruct Hd as (entry & <- & _).
  repeat split.
Qed.

End QueryBuilderFacts.

(** C3.  For every pool id, optional node id and window length the builder
    returns one descriptor per catalog entry, in catalog order, each carrying
    its entry's upstream identifier and segment, [top = 1000],
    [aggregation = "avg"], [timespan = "PT<minutes>M"] and the calculator's
    interval ["PT<seconds>S"]; the pool query for ["pool1"] over 100 minutes
    has interval ["PT10S"] and timespan ["PT100M"] throughout. *)
Theorem C3_one_descriptor_per_catalog_entry
        (toOData : Filter -> string) (poolId : string) (nodeId : option string)
        (w : Z) :
  (exists ds,
      _buildQuery toOData poolId nodeId w = Normal ds /\
      List.length ds = List.length metrics /\
      map id ds = JsObject.keys metrics /\
      map (fun d => metrics_at (id d)) ds
      = map (fun d => Some {| appInsightsMetricId := metricId (parameters d);
                              segment := q_segment (parameters d) |}) ds /\
      Forall (fun d =>
                top (parameters d) = 1000 /\
                aggregation (parameters d) = "avg" /\
                timespan (parameters d) = "PT" ++ toString w ++ "M" /\
                interval (parameters d)
                = "PT" ++ toString (intervalInSeconds (inject_Z w)) ++ "S")
             ds) /\
  (exists ds,
      buildPoolQuery toOData "pool1" 100 = Normal ds /\
      Forall (fun d => interval (parameters d) = "PT10S" /\
                       timespan (parameters d) = "PT100M") ds).
Proof.
  split.
  - exists (map (descriptorFor toOData poolId nodeId w) metrics).
    split; [apply buildQuery_returns |].
    split; [apply List.length_map |].
    split; [rewrite keys_metrics, map_map; reflexivity |].
    split.
    + rewrite !map_map. unfold descriptorFor.
      cbn [id parameters metricId q_segment]. vm_compute. reflexivity.
    + eapply Forall_impl; [| apply descriptorFor_fields].
      intros d (Ht & Ha & Hs & Hi & _).
      split; [exact Ht | split; [exact Ha | split; [exact Hs | exact Hi]]].
  - exists (map (descriptorFor toOData "pool1" None 100) metrics).
    split; [unfold buildPoolQuery; apply buildQuery_returns |].
    apply Forall_forall. intros d Hd.
    apply in_map_iff in Hd. destruct Hd as (entry & <- & _).
    unfold descriptorFor. cbn [interval timespan parameters].
    split; vm_compute; reflexivity.
Qed.

(** C2, as stated, fails: a window of 0 minutes is not rejected; the builder
    returns its fourteen descriptors, with interval ["PT0S"]. *)
Lemma C2_zero_window_builds_descriptors :
  exists ds,
    buildPoolQuery renderOData "pool1" 0 = Normal ds /\
    List.length ds = 14%nat /\
    Forall (fun d => interval (parameters d) = "PT0S" /\
                     timespan (parameters d) = "PT0M") ds.
Proof.
  eexists. split; [vm_compute; reflexivity |].
  split; [reflexivity |].
  repeat constructor.
Qed.

(** C2, amended.  A window of [w <= 0] minutes raises no error: the builder
    returns one descriptor per catalog entry, each with timespan
    ["PT<w>M"] and an interval ["PT<s>S"] whose [s] is a multiple of 10
    that is not positive. *)
Theorem C2_nonpositive_window_not_rejected
        (toOData : Filter -> string) (poolId : string) (nodeId : option string)
        (w : Z) :
  w <= 0 ->
  exists ds,
    _buildQuery toOData poolId nodeId w = Normal ds /\
    List.length ds = List.length metrics /\
    intervalInSeconds (inject_Z w) <= 0 /\
    intervalInSeconds (inject_Z w) mod 10 = 0 /\
    Forall (fun d =>
              timespan (parameters d) = "PT" ++ toString w ++ "M" /\
              interval (parameters d)
              = "PT" ++ toString (intervalInSeconds (inject_Z w)) ++ "S")
           ds.
Proof.
  intros Hw.
  exists (map (descriptorFor toOData poolId nodeId w) metrics).
  split; [apply buildQuery_returns |].
  split; [apply List.length_map |].
  split.
  - unfold intervalInSeconds.
    assert (H : Qceiling (inject_Z w / numberOfPoints * 60 / 10) <= 0).
    { apply Qceiling_le_iff.
      apply Qle_trans with (0 / numberOfPoints * 60 / 10)%Q; [| discriminate].
      apply scaled_window_mono. change 0%Q with (inject_Z 0).
      rewrite <- Zle_Qle. exact Hw. }
    lia.
  - split; [apply Z.mod_mul; lia |].
    eapply Forall_impl; [| apply descriptorFor_fields].
    intros d (_ & _ & Hs & Hi & _). split; [exact Hs | exact Hi].
Qed.

Lemma C2_nonpositive_window_witness :
  exists ds,
    _buildQuery renderOData "pool1" (Some "node1") (-1000) = Normal ds /\
    List.length ds = List.length metrics /\
    intervalInSeconds (inject_Z (-1000)) <= 0 /\
    intervalInSeconds (inject_Z (-1000)) mod 10 = 0 /\
    Forall (fun d =>
              timespan (parameters d) = "PT" ++ toString (-1000) ++ "M" /\
              interval (parameters d)
              = "PT" ++ toString (intervalInSeconds (inject_Z (-1000))) ++ "S")
           ds.
Proof.
  apply (C2_nonpositive_window_not_rejected renderOData "pool1" (Some "node1") (-1000)).
  lia.
Defined.

Lemma buildFilter_pool (poolId : string) :
  _buildFilter poolId None = PropEq "cloud/roleName" poolId.
Proof. reflexivity. Qed.

Lemma buildFilter_node (poolId nodeId : string) :
  _buildFilter poolId (Some nodeId)
  = if String.eqb nodeId ""
    then PropEq "cloud/roleName" poolId
    else And (PropEq "cloud/roleName" poolId) (PropEq "cloud/roleInstance" nodeId).
Proof.
  unfold _buildFilter, truthy. destruct (String.eqb nodeId ""); reflexivity.
Qed.

(** C4, as stated, fails for the empty node id: it is falsy, so the node
    query's filter is the pool predicate alone, not an AND-composition. *)
Lemma C4_empty_node_id_is_not_composed :
  _buildFilter "pool1" (Some "") = PropEq "cloud/roleName" "pool1" /\
  ~ (exists nodePredicate,
        _buildFilter "pool1" (Some "")
        = And (_buildFilter "pool1" None) nodePredicate).
Proof.
  split; [reflexivity |].
  intros (nodePredicate & H). discriminate H.
Qed.

(** C4, amended.  For every pool id, non-empty node id and window length,
    the node query's filter is the pool query's filter (the equality
    predicate on the role name, unchanged) AND-composed with exactly one
    equality predicate on the role instance; with no node id the filter is
    the pool predicate alone.  Every descriptor of a batch carries the
    serialization of that filter. *)
Theorem C4_node_filter_composes_pool_filter
        (toOData : Filter -> string) (poolId nodeId : string) (w : Z) :
  nodeId <> "" ->
  _buildFilter poolId None = PropEq "cloud/roleName" poolId /\
  _buildFilter poolId (Some nodeId)
  = And (_buildFilter poolId None) (PropEq "cloud/roleInstance" nodeId) /\
  exists nodeQuery poolQuery,
    buildNodeQuery toOData poolId nodeId w = Normal nodeQuery /\
    buildPoolQuery toOData poolId w = Normal poolQuery /\
    Forall (fun d => filter (parameters d)
                     = toOData (And (PropEq "cloud/roleName" poolId)
                                    (PropEq "cloud/roleInstance" nodeId)))
           nodeQuery /\
    Forall (fun d => filter (parameters d)
                     = toOData (PropEq "cloud/roleName" poolId))
           poolQuery.
Proof.
  intros Hnode.
  assert (Hf : _buildFilter poolId (Some nodeId)
               = And (_buildFilter poolId None) (PropEq "cloud/roleInstance" nodeId)).
  { rewrite buildFilter_node, buildFilter_pool.
    destruct (String.eqb_spec nodeId ""); [contradiction | reflexivity]. }
  split; [reflexivity |]. split; [exact Hf |].
  exists (map (descriptorFor toOData poolId (Some nodeId) w) metrics),
         (map (descriptorFor toOData poolId None w) metrics).
  unfold buildNodeQuery, buildPoolQuery.
  split; [apply buildQuery_returns |]. split; [apply buildQuery_returns |].
  split.
  - eapply Forall_impl; [| apply descriptorFor_fields].
    intros d (_ & _ & _ & _ & H). rewrite H, Hf. reflexivity.
  - eapply Forall_impl; [| apply descriptorFor_fields].
    intros d (_ & _ & _ & _ & H). exact H.
Qed.

Lemma C4_node_filter_witness :
  _buildFilter "pool1" (Some "node1")
  = And (_buildFilter "pool1" None) (PropEq "cloud/roleInstance" "node1").
Proof.
  apply (C4_node_filter_composes_pool_filter renderOData "pool1" "node1" 100).
  discriminate.
Defined.

(** C10.  With the empty string as node id the node query is the pool
    query: same descriptors, whose filter is the pool predicate alone; the
    role-instance predicate is added exactly when the node id is not
    empty. *)
Theorem C10_empty_node_id_is_pool_query
        (toOData : Filter -> string) (poolId : string) (w : Z) :
  buildNodeQuery toOData poolId "" w = buildPoolQuery toOData poolId w /\
  (exists ds,
      buildNodeQuery toOData poolId "" w = Normal ds /\
      List.length ds = List.length metrics /\
      Forall (fun d => filter (parameters d)
                       = toOData (PropEq "cloud/roleName" poolId)) ds) /\
  (forall nodeId,
      _buildFilter poolId (Some nodeId)
      = And (PropEq "cloud/roleName" poolId) (PropEq "cloud/roleInstance" nodeId)
      <-> nodeId <> "").
Proof.
  split; [| split].
  - unfold buildNodeQuery, buildPoolQuery. rewrite !buildQuery_returns.
    reflexivity.
  - exists (map (descriptorFor toOData poolId (Some "") w) metrics).
    unfold buildNodeQuery.
    split; [apply buildQuery_returns |]. split; [apply List.length_map |].
    eapply Forall_impl; [| apply descriptorFor_fields].
    intros d (_ & _ & _ & _ & H). exact H.
  - intros nodeId. rewrite buildFilter_node.
    destruct (String.eqb_spec nodeId "") as [-> | Hne].
    + split; [discriminate | intros H; now elim H].
    + split; [intros _; exact Hne | reflexivity].
Qed.

(* ================================================================== *)
(** * Properties of the reshaper's dispatch *)

(** The catalog flags exactly these keys by their segmentation: a device
    dimension, CPU for the first and GPU for the other two. *)
Lemma catalog_designates_individual_keys (key : string) (metric : MetricDefinition) :
  In (key, metric) metrics ->
  (key = "individualCpuUsage" <-> segment metric = "customDimensions/[CPU #]") /\
  (key = "individualGpuUsage" \/ key = "individualGpuMemory"
   <-> segment metric = "customDimensions/[GPU #]") /\
  (In key individualDeviceKeys
   <-> segment metric <> "cloud/roleInstance" /\
       segment metric <> "customDimensions/Disk,cloud/roleInstance").
Proof.
  intros H. unfold metrics in H. simpl in H.
  repeat (destruct H as [H | H];
          [ injection H as <- <-; simpl;
            repeat split; intros; intuition (try discriminate; try congruence)
          | ]).
  contradiction.
Qed.

(** C7.  The dispatch sends a key to the fan-out if and only if it is one
    of the three designated keys, [individualCpuUsage] with the CPU device
    dimension and [individualGpuUsage], [individualGpuMemory] with the GPU
    one; every other key goes to the flat processor.  The choice is made on
    the key alone, whatever the payload.  The three keys are the catalog
    entries segmented by a device dimension. *)
Theorem C7_dispatch_by_designated_key
        (T : Type)
        (process : option MetricDefinition -> AppInsightsMetricBody -> Completion T)
        (performances : JsObject.t (Performance T)) (metricResult : MetricResult) :
  let key := mr_id metricResult in
  let data := body_value metricResult in
  (key = "individualCpuUsage" ->
   processMetricResult process performances metricResult
   = (usages <- _processIndividualDeviceUsage key "customDimensions/CPU #" (segments data) ;;
      Normal (JsObject.set performances key (PerDevice usages)))) /\
  (key = "individualGpuUsage" \/ key = "individualGpuMemory" ->
   processMetricResult process performances metricResult
   = (usages <- _processIndividualDeviceUsage key "customDimensions/GPU #" (segments data) ;;
      Normal (JsObject.set performances key (PerDevice usages)))) /\
  (~ In key individualDeviceKeys ->
   processMetricResult process performances metricResult
   = (series <- process (metrics_at key) data ;;
      Normal (JsObject.set performances key (Segmented series)))) /\
  List.length individualDeviceKeys = 3%nat /\
  NoDup individualDeviceKeys /\
  Forall (fun k => exists metric,
              metrics_at k = Some metric /\
              (segment metric = "customDimensions/[CPU #]" \/
               segment metric = "customDimensions/[GPU #]"))
         individualDeviceKeys.
Proof.
  intros key data. unfold processMetricResult, _processSegmentedMetric.
  fold key. fold data.
  split; [| split; [| split; [| split; [| split]]]].
  - intros ->. reflexivity.
  - intros [-> | ->]; reflexivity.
  - intros Hn. simpl in Hn.
    destruct (String.eqb_spec key "individualCpuUsage") as [E | _];
      [exfalso; apply Hn; auto |].
    destruct (String.eqb_spec key "individualGpuUsage") as [E | _];
      [exfalso; apply Hn; auto |].
    destruct (String.eqb_spec key "individualGpuMemory") as [E | _];
      [exfalso; apply Hn; auto |].
    reflexivity.
  - reflexivity.
  - repeat constructor; simpl; intuition discriminate.
  - repeat constructor; eexists; (split; [vm_compute; reflexivity |]); simpl; auto.
Qed.

Lemma C7_dispatch_witness :
  processMetricResult flatProcessor JsObject.empty
    {| mr_id := "cpuUsage";
       body_value := {| segments := [ {| start := 0; end_ := 60;
                                         seg_value := JNumber 5;
                                         seg_nested := None |} ] |} |}
  = Normal [("cpuUsage",
             Segmented (PerformanceSeries [ {| time := 30; value := JNumber 5 |} ]))].
Proof.
  pose proof (C7_dispatch_by_designated_key FlatOutcome flatProcessor JsObject.empty
                {| mr_id := "cpuUsage";
                   body_value := {| segments := [ {| start := 0; end_ := 60;
                                                     seg_value := JNumber 5;
                                                     seg_nested := None |} ] |} |})
    as (_ & _ & H & _).
  rewrite H.
  - reflexivity.
  - simpl. intuition discriminate.
Defined.

(* ================================================================== *)
(** * The fan-out, read as a grouping of readings *)

Section ForOf.

Context {A S : Type}.
Variable body : S -> A -> Completion S.
Variable step : S -> A -> S.

Lemma forOf_returns (xs : list A) :
  (forall s x, In x xs -> body s x = Normal (step s x)) ->
  forall s, forOf body xs s = Normal (fold_left step xs s).
Proof.
  induction xs as [| x xs IH]; intros H s; simpl.
  - reflexivity.
  - rewrite (H s x (or_introl eq_refl)). simpl.
    apply IH. intros s' y Hy. apply H. now right.
Qed.

Lemma forOf_returned (xs : list A) :
  (forall s x s', In x xs -> body s x = Normal s' -> s' = step s x) ->
  forall s s', forOf body xs s = Normal s' -> s' = fold_left step xs s.
Proof.
  induction xs as [| x xs IH]; intros H s s' Hrun; simpl in *.
  - now injection Hrun as <-.
  - destruct (body s x) as [s1 |] eqn:E; simpl in Hrun; [| discriminate].
    rewrite <- (H s x s1 (or_introl eq_refl) E).
    apply IH; [| exact Hrun]. intros t y t' Hy. apply H. now right.
Qed.

Lemma forOf_each_returned (xs : list A) (s s' : S) :
  forOf body xs s = Normal s' ->
  forall x, In x xs -> exists t t', body t x = Normal t'.
Proof.
  revert s. induction xs as [| x xs IH]; intros s Hrun y Hy; simpl in *.
  - contradiction.
  - destruct (body s x) as [s1 |] eqn:E; simpl in Hrun; [| discriminate].
    destruct Hy as [<- | Hy]; [now exists s, s1 | now apply (IH s1)].
Qed.

End ForOf.

Section ObjectFacts.

Context {V : Type}.
Implicit Types (o : JsObject.t V) (k : string) (v : V).

Lemma get_app o1 o2 k :
  JsObject.get (o1 ++ o2)%list k
  = match JsObject.get o1 k with Some v => Some v | None => JsObject.get o2 k end.
Proof.
  induction o1 as [| [k1 v1] o1 IH]; simpl; [reflexivity |].
  destruct (String.eqb k1 k); [reflexivity | exact IH].
Qed.

Lemma get_set o k v k' :
  JsObject.get (JsObject.set o k v) k'
  = if String.eqb k k' then Some v else JsObject.get o k'.
Proof.
  induction o as [| [k1 v1] o IH]; simpl.
  - reflexivity.
  - destruct (String.eqb_spec k1 k) as [-> | Hne]; simpl.
    + destruct (String.eqb k k'); reflexivity.
    + destruct (String.eqb_spec k1 k') as [-> | Hne'].
      * destruct (String.eqb_spec k k'); [congruence | reflexivity].
      * exact IH.
Qed.

Lemma set_absent o k v :
  JsObject.get o k = None -> JsObject.set o k v = (o ++ [(k, v)])%list.
Proof.
  induction o as [| [k1 v1] o IH]; simpl; intros H; [reflexivity |].
  destruct (String.eqb k1 k); [discriminate | now rewrite IH].
Qed.

Lemma set_set o k v v' :
  JsObject.set (JsObject.set o k v) k v' = JsObject.set o k v'.
Proof.
  induction o as [| [k1 v1] o IH]; simpl.
  - now rewrite String.eqb_refl.
  - destruct (String.eqb k1 k) eqn:E; simpl; rewrite E; [reflexivity | now rewrite IH].
Qed.

Lemma created_set_present o k v :
  JsObject.get o k <> None ->
  JsObject.created (JsObject.set o k v) = JsObject.created o.
Proof.
  unfold JsObject.created.
  induction o as [| [k1 v1] o IH]; simpl; intros H; [congruence |].
  destruct (String.eqb k1 k); simpl; [reflexivity | now rewrite IH].
Qed.

Lemma get_none_iff o k :
  JsObject.get o k = None <-> ~ In k (JsObject.created o).
Proof.
  unfold JsObject.created.
  induction o as [| [k1 v1] o IH]; simpl; [tauto |].
  destruct (String.eqb_spec k1 k) as [-> | Hne].
  - split; [discriminate | intros H; elim H; now left].
  - rewrite IH. tauto.
Qed.

End ObjectFacts.

Section Grouping.

Implicit Types (usages : JsObject.t (list Sample)) (dev : string).

Lemma created_file usages (r : string * Sample) :
  JsObject.created (file usages r)
  = if JsObject.hasOwn usages (fst r) then JsObject.created usages
    else (JsObject.created usages ++ [fst r])%list.
Proof.
  unfold file, JsObject.hasOwn.
  destruct (JsObject.get usages (fst r)) as [series |] eqn:E.
  - apply created_set_present. congruence.
  - unfold JsObject.created. now rewrite map_app.
Qed.

Lemma get_file usages (r : string * Sample) dev :
  JsObject.get (file usages r) dev
  = if String.eqb (fst r) dev then Some (held usages dev ++ [snd r])%list
    else JsObject.get usages dev.
Proof.
  unfold file, held.
  destruct (JsObject.get usages (fst r)) as [series |] eqn:E.
  - rewrite get_set.
    destruct (String.eqb_spec (fst r) dev) as [<- | _]; [now rewrite E | reflexivity].
  - rewrite get_app. simpl.
    destruct (String.eqb_spec (fst r) dev) as [<- | _].
    + now rewrite E.
    + now destruct (JsObject.get usages dev).
Qed.

Lemma held_fold (rs : list (string * Sample)) usages dev :
  held (fold_left file rs usages) dev = (held usages dev ++ sightings dev rs)%list.
Proof.
  revert usages. induction rs as [| r rs IH]; intros usages; simpl.
  - unfold sightings. simpl. now rewrite app_nil_r.
  - rewrite IH. unfold held at 1. rewrite get_file. unfold sightings. simpl.
    destruct (String.eqb (fst r) dev); simpl.
    + now rewrite <- app_assoc.
    + reflexivity.
Qed.

Lemma filter_filter_names (p q : string -> bool) (l : list string) :
  List.filter p (List.filter q l) = List.filter (fun x => q x && p x)%bool l.
Proof.
  induction l as [| x l IH]; simpl; [reflexivity |].
  destruct (q x); simpl; [destruct (p x); now rewrite IH | exact IH].
Qed.

Lemma hasOwn_existsb usages dev :
  JsObject.hasOwn usages dev = existsb (String.eqb dev) (JsObject.created usages).
Proof.
  unfold JsObject.hasOwn, JsObject.created.
  induction usages as [| [k v] usages IH]; simpl; [reflexivity |].
  rewrite (String.eqb_sym dev k).
  destruct (String.eqb k dev); [reflexivity | exact IH].
Qed.

Lemma created_fold (rs : list (string * Sample)) usages :
  JsObject.created (fold_left file rs usages)
  = (JsObject.created usages
     ++ List.filter (unseen (JsObject.created usages)) (firstSeen (map fst rs)))%list.
Proof.
  revert usages. induction rs as [| r rs IH]; intros usages; simpl.
  - now rewrite app_nil_r.
  - rewrite IH, created_file, hasOwn_existsb.
    set (seen := JsObject.created usages).
    unfold unseen at 2.
    destruct (existsb (String.eqb (fst r)) seen) eqn:E; simpl.
    + f_equal. rewrite filter_filter_names. apply filter_ext_in.
      intros x _. unfold unseen.
      destruct (String.eqb_spec x (fst r)) as [-> | _]; simpl; [now rewrite E | reflexivity].
    + rewrite <- app_assoc. simpl. do 2 f_equal.
      rewrite filter_filter_names. apply filter_ext_in.
      intros x _. unfold unseen. rewrite existsb_app. simpl.
      rewrite orb_false_r, negb_orb. apply andb_comm.
Qed.

Lemma firstSeen_In (names : list string) (x : string) :
  In x (firstSeen names) <-> In x names.
Proof.
  induction names as [| n names IH]; simpl; [tauto |].
  rewrite filter_In, IH.
  destruct (String.eqb_spec x n) as [-> | Hne]; simpl.
  - intuition discriminate.
  - intuition congruence.
Qed.

Lemma firstSeen_NoDup (names : list string) : NoDup (firstSeen names).
Proof.
  induction names as [| n names IH]; simpl; constructor.
  - rewrite filter_In. intros [_ H]. now rewrite String.eqb_refl in H.
  - now apply NoDup_filter.
Qed.

End Grouping.

Section FanOut.

Variables id deviceKey : string.

Lemma addIndividualSegment_returned (time : Z) (usages usages' : JsObject.t (list Sample))
      (sub : JsObject.t JValue) :
  addIndividualSegment id deviceKey time usages sub = Normal usages' ->
  readAvg id sub = Normal (valueOf id sub) /\
  usages' = file usages (deviceOf deviceKey sub, sampleOf id time sub).
Proof.
  unfold addIndividualSegment, sampleOf, valueOf, readAvg.
  destruct (_getAppInsightsMetricId id) as [name |]; simpl; [| discriminate].
  destruct (avg (field sub name)) as [v |]; simpl; [| discriminate].
  fold (deviceOf deviceKey sub). set (dev := deviceOf deviceKey sub).
  unfold push, file, JsObject.has, JsObject.hasOwn. simpl.
  destruct (JsObject.get usages dev) as [series |] eqn:E; simpl.
  - rewrite E. intros H. injection H as <-. now split.
  - destruct (JsObject.isInherited dev); simpl.
    + rewrite E. discriminate.
    + rewrite get_set, String.eqb_refl. intros H. injection H as <-.
      split; [reflexivity |].
      rewrite set_set. now apply set_absent.
Qed.

Lemma addIndividualSegment_returns (time : Z) (usages : JsObject.t (list Sample))
      (sub : JsObject.t JValue) :
  wellFormed id deviceKey sub = true ->
  addIndividualSegment id deviceKey time usages sub
  = Normal (file usages (deviceOf deviceKey sub, sampleOf id time sub)).
Proof.
  unfold wellFormed, addIndividualSegment, sampleOf, valueOf, readAvg.
  destruct (_getAppInsightsMetricId id) as [name |]; simpl; [| discriminate].
  destruct (avg (field sub name)) as [v |]; simpl; [| discriminate].
  fold (deviceOf deviceKey sub). set (dev := deviceOf deviceKey sub).
  intros Hdev. apply negb_true_iff in Hdev.
  unfold push, file, JsObject.has, JsObject.hasOwn. rewrite Hdev. simpl.
  destruct (JsObject.get usages dev) as [series |] eqn:E; simpl.
  - now rewrite E.
  - rewrite get_set, String.eqb_refl, set_set. f_equal. now apply set_absent.
Qed.

Lemma fold_file_readingsOf (bucket : Segment) (usages : JsObject.t (list Sample)) :
  fold_left (fun u sub =>
               file u (deviceOf deviceKey sub,
                       sampleOf id (_getDateAvg (start bucket) (end_ bucket)) sub))
            (seg_segments bucket) usages
  = fold_left file (readingsOf id deviceKey bucket) usages.
Proof.
  unfold readingsOf. revert usages.
  induction (seg_segments bucket) as [| sub subs IH]; intros usages; simpl;
    [reflexivity | apply IH].
Qed.

Lemma fold_file_readings (buckets : list Segment) (usages : JsObject.t (list Sample)) :
  fold_left (fun u bucket => fold_left file (readingsOf id deviceKey bucket) u)
            buckets usages
  = fold_left file (readings id deviceKey buckets) usages.
Proof.
  unfold readings. revert usages.
  induction buckets as [| bucket buckets IH]; intros usages; simpl;
    [reflexivity | now rewrite fold_left_app, IH].
Qed.

Lemma addSegment_returned (usages usages' : JsObject.t (list Sample)) (bucket : Segment) :
  addSegment id deviceKey usages bucket = Normal usages' ->
  usages' = fold_left file (readingsOf id deviceKey bucket) usages.
Proof.
  unfold addSegment. rewrite <- fold_file_readingsOf. unfold seg_segments.
  destruct (seg_nested bucket) as [subs |]; [| discriminate].
  apply forOf_returned.
  intros s sub s' _ Hs. now apply addIndividualSegment_returned in Hs.
Qed.

Lemma addSegment_nested (usages usages' : JsObject.t (list Sample)) (bucket : Segment) :
  addSegment id deviceKey usages bucket = Normal usages' ->
  hasNested bucket = true.
Proof.
  unfold addSegment, hasNested.
  destruct (seg_nested bucket); [reflexivity | discriminate].
Qed.

(** Whenever the fan-out returns, it returns the grouping of the readings. *)
Lemma fanOut_returned (buckets : list Segment) (usages : JsObject.t (list Sample)) :
  _processIndividualDeviceUsage id deviceKey buckets = Normal usages ->
  usages = fold_left file (readings id deviceKey buckets) JsObject.empty.
Proof.
  unfold _processIndividualDeviceUsage. intros H.
  rewrite <- fold_file_readings. revert H. apply forOf_returned.
  intros s bucket s' _. apply addSegment_returned.
Qed.

(** Whenever the fan-out returns, every averaged value could be read. *)
Lemma fanOut_returned_read (buckets : list Segment) (usages : JsObject.t (list Sample))
      (bucket : Segment) (sub : JsObject.t JValue) :
  _processIndividualDeviceUsage id deviceKey buckets = Normal usages ->
  In bucket buckets -> In sub (seg_segments bucket) ->
  readAvg id sub = Normal (valueOf id sub).
Proof.
  unfold _processIndividualDeviceUsage. intros H Hb Hs.
  destruct (forOf_each_returned _ _ _ _ H bucket Hb) as (t & t' & Ht).
  unfold addSegment in Ht. unfold seg_segments in Hs.
  destruct (seg_nested bucket) as [subs |]; [| discriminate].
  destruct (forOf_each_returned _ _ _ _ Ht sub Hs) as (u & u' & Hu).
  now apply addIndividualSegment_returned in Hu.
Qed.

(** On buckets with their nested array and well-formed sub-aggregates the
    fan-out returns. *)
Lemma fanOut_returns (buckets : list Segment) :
  (forall bucket, In bucket buckets -> hasNested bucket = true) ->
  (forall bucket sub, In bucket buckets -> In sub (seg_segments bucket) ->
                      wellFormed id deviceKey sub = true) ->
  _processIndividualDeviceUsage id deviceKey buckets
  = Normal (fold_left file (readings id deviceKey buckets) JsObject.empty).
Proof.
  intros Hnested Hwf. unfold _processIndividualDeviceUsage.
  rewrite <- fold_file_readings. apply forOf_returns.
  intros s bucket Hb. unfold addSegment. rewrite <- fold_file_readingsOf.
  specialize (Hnested bucket Hb). specialize (Hwf bucket).
  unfold hasNested in Hnested. unfold seg_segments in *.
  destruct (seg_nested bucket) as [subs |]; [| discriminate].
  apply forOf_returns. intros u sub Hs.
  apply addIndividualSegment_returns. now apply Hwf.
Qed.

(** A sub-aggregate whose averaged value cannot be read makes the whole
    fan-out throw. *)
Lemma fanOut_throws (buckets : list Segment) (bucket : Segment)
      (sub : JsObject.t JValue) :
  In bucket buckets -> In sub (seg_segments bucket) ->
  readAvg id sub = Throw TypeError ->
  _processIndividualDeviceUsage id deviceKey buckets = Throw TypeError.
Proof.
  intros Hb Hs Hread.
  destruct (_processIndividualDeviceUsage id deviceKey buckets) as [usages | []] eqn:E;
    [| reflexivity].
  rewrite (fanOut_returned_read _ _ _ _ E Hb Hs) in Hread. discriminate.
Qed.

Lemma sightings_readings (dev : string) (buckets : list Segment) :
  sightings dev (readings id deviceKey buckets) = seriesOf id deviceKey dev buckets.
Proof.
  unfold sightings, readings, seriesOf.
  induction buckets as [| bucket buckets IH]; simpl; [reflexivity |].
  rewrite filter_app, map_app, IH. f_equal.
  unfold readingsOf.
  induction (seg_segments bucket) as [| sub subs IHs]; simpl; [reflexivity |].
  destruct (String.eqb (deviceOf deviceKey sub) dev); simpl; now rewrite IHs.
Qed.

Lemma devices_readings (dev : string) (buckets : list Segment) :
  In dev (map fst (readings id deviceKey buckets))
  <-> exists bucket sub, In bucket buckets /\ In sub (seg_segments bucket) /\
                         deviceOf deviceKey sub = dev.
Proof.
  unfold readings, readingsOf. rewrite in_map_iff. split.
  - intros ([d s] & <- & Hin). apply in_flat_map in Hin.
    destruct Hin as (bucket & Hb & Hin). apply in_map_iff in Hin.
    destruct Hin as (sub & E & Hs). injection E as <- _. now exists bucket, sub.
  - intros (bucket & sub & Hb & Hs & <-).
    eexists. split; [| apply in_flat_map; exists bucket; split;
                       [exact Hb | apply in_map_iff; exists sub; split;
                                   [reflexivity | exact Hs]]].
    reflexivity.
Qed.

(** The object the fan-out returns, read declaratively. *)
Lemma grouping_shape (buckets : list Segment) :
  let usages := fold_left file (readings id deviceKey buckets) JsObject.empty in
  JsObject.created usages = firstSeen (map fst (readings id deviceKey buckets)) /\
  forall dev,
    JsObject.get usages dev
    = if existsb (String.eqb dev) (map fst (readings id deviceKey buckets))
      then Some (seriesOf id deviceKey dev buckets) else None.
Proof.
  intros usages. split.
  - unfold usages. rewrite created_fold. simpl.
    apply forallb_filter_id. apply forallb_forall. reflexivity.
  - intros dev.
    pose proof (held_fold (readings id deviceKey buckets) JsObject.empty dev) as Hh.
    fold usages in Hh. rewrite sightings_readings in Hh. simpl in Hh.
    pose proof (hasOwn_existsb usages dev) as Ho.
    unfold usages in Ho at 2. rewrite created_fold in Ho. simpl in Ho.
    rewrite forallb_filter_id in Ho by (apply forallb_forall; reflexivity).
    assert (Hex : existsb (String.eqb dev) (firstSeen (map fst (readings id deviceKey buckets)))
                  = existsb (String.eqb dev) (map fst (readings id deviceKey buckets))).
    { apply eq_true_iff_eq. rewrite !existsb_exists.
      split; intros (x & Hx & Hd); exists x; (split; [| exact Hd]);
        now apply firstSeen_In. }
    rewrite Hex in Ho. rewrite <- Ho.
    unfold held, JsObject.hasOwn in *.
    destruct (JsObject.get usages dev); [now rewrite Hh | reflexivity].
Qed.

End FanOut.

Section ForOfInvariant.

Context {A S : Type}.
Variable body : S -> A -> Completion S.
Variable Inv : S -> Prop.
Variable Good : A -> Prop.

Lemma forOf_invariant (xs : list A) :
  (forall s x s', In x xs -> Inv s -> body s x = Normal s' -> Inv s' /\ Good x) ->
  forall s s', Inv s -> forOf body xs s = Normal s' -> Inv s' /\ Forall Good xs.
Proof.
  induction xs as [| x xs IH]; intros H s s' Hs Hrun; simpl in *.
  - injection Hrun as <-. now split.
  - destruct (body s x) as [s1 |] eqn:E; simpl in Hrun; [| discriminate].
    destruct (H s x s1 (or_introl eq_refl) Hs E) as [Hs1 Hx].
    destruct (IH (fun t y t' Hy => H t y t' (or_intror Hy)) s1 s' Hs1 Hrun)
      as [Hs' Hxs].
    split; [exact Hs' | now constructor].
Qed.

End ForOfInvariant.

Lemma forOf_app {A S : Type} (body : S -> A -> Completion S) (xs ys : list A) (s : S) :
  forOf body (xs ++ ys) s = (s' <- forOf body xs s ;; forOf body ys s').
Proof.
  revert s. induction xs as [| x xs IH]; intros s; simpl; [reflexivity |].
  destruct (body s x) as [s1 |]; simpl; [apply IH | reflexivity].
Qed.

Lemma created_file_incl (usages : JsObject.t (list Sample)) (r : string * Sample) :
  ownNamesFresh usages -> JsObject.isInherited (fst r) = false ->
  ownNamesFresh (file usages r).
Proof.
  unfold ownNamesFresh. intros Hu Hr. rewrite created_file.
  destruct (JsObject.hasOwn usages (fst r)); [exact Hu |].
  apply Forall_app. split; [exact Hu | now constructor].
Qed.

Lemma addIndividualSegment_wellFormed (id deviceKey : string) (time : Z)
      (usages usages' : JsObject.t (list Sample)) (sub : JsObject.t JValue) :
  ownNamesFresh usages ->
  addIndividualSegment id deviceKey time usages sub = Normal usages' ->
  ownNamesFresh usages' /\ wellFormed id deviceKey sub = true.
Proof.
  intros Hfresh Hrun.
  assert (Hdev : JsObject.isInherited (deviceOf deviceKey sub) = false).
  { destruct (JsObject.isInherited (deviceOf deviceKey sub)) eqn:Hinh; [| reflexivity].
    exfalso. revert Hrun. unfold addIndividualSegment.
    destruct (_getAppInsightsMetricId id) as [name |]; simpl; [| discriminate].
    destruct (avg (field sub name)) as [v |]; simpl; [| discriminate].
    fold (deviceOf deviceKey sub). unfold JsObject.has. rewrite Hinh, orb_true_r. simpl.
    unfold push.
    destruct (JsObject.get usages (deviceOf deviceKey sub)) as [series |] eqn:E;
      [| discriminate].
    assert (Hin : In (deviceOf deviceKey sub) (JsObject.created usages)).
    { destruct (in_dec string_dec (deviceOf deviceKey sub) (JsObject.created usages))
        as [Hin | Hout]; [exact Hin |].
      apply get_none_iff in Hout. congruence. }
    unfold ownNamesFresh in Hfresh. rewrite Forall_forall in Hfresh.
    apply Hfresh in Hin. congruence. }
  apply addIndividualSegment_returned in Hrun. destruct Hrun as [Hread ->].
  split.
  - now apply created_file_incl.
  - unfold wellFormed. now rewrite Hread, Hdev.
Qed.

Lemma fanOut_returned_wellFormed (id deviceKey : string) (buckets : list Segment)
      (usages : JsObject.t (list Sample)) :
  _processIndividualDeviceUsage id deviceKey buckets = Normal usages ->
  allWellFormed id deviceKey buckets = true.
Proof.
  unfold _processIndividualDeviceUsage, allWellFormed. intros Hrun.
  apply forallb_forall. apply Forall_forall.
  refine (proj2 (forOf_invariant (addSegment id deviceKey) ownNamesFresh
                   (fun bucket =>
                      (hasNested bucket
                       && forallb (wellFormed id deviceKey)
                                  (seg_segments bucket))%bool = true)
                   buckets _ JsObject.empty usages _ Hrun)).
  - intros s bucket s' _ Hs Hb.
    rewrite (addSegment_nested id deviceKey s s' bucket Hb). simpl.
    unfold addSegment in Hb. unfold seg_segments.
    destruct (seg_nested bucket) as [subs |]; [| discriminate].
    destruct (forOf_invariant
                (addIndividualSegment id deviceKey
                   (_getDateAvg (start bucket) (end_ bucket)))
                ownNamesFresh (fun sub => wellFormed id deviceKey sub = true)
                subs
                (fun t sub t' _ Ht Hsub =>
                   addIndividualSegment_wellFormed id deviceKey _ t t' sub Ht Hsub)
                s s' Hs Hb) as [Hs' Hall].
    split; [exact Hs' |]. apply forallb_forall. now apply Forall_forall.
  - constructor.
Qed.

Lemma allWellFormed_spec (id deviceKey : string) (buckets : list Segment) :
  allWellFormed id deviceKey buckets = true
  <-> (forall bucket, In bucket buckets -> hasNested bucket = true) /\
      (forall bucket sub, In bucket buckets -> In sub (seg_segments bucket) ->
                          wellFormed id deviceKey sub = true).
Proof.
  unfold allWellFormed. rewrite forallb_forall. split.
  - intros H. split.
    + intros bucket Hb. specialize (H bucket Hb).
      now apply andb_true_iff in H.
    + intros bucket sub Hb Hs. specialize (H bucket Hb).
      apply andb_true_iff in H. destruct H as [_ H].
      rewrite forallb_forall in H. now apply H.
  - intros [Hn H] bucket Hb. apply andb_true_iff. split; [now apply Hn |].
    apply forallb_forall. intros sub Hs. now apply (H bucket).
Qed.

Lemma allWellFormed_false (id deviceKey : string) (buckets : list Segment) :
  allWellFormed id deviceKey buckets = false
  <-> (exists bucket, In bucket buckets /\ hasNested bucket = false) \/
      (exists bucket sub, In bucket buckets /\ In sub (seg_segments bucket) /\
                          wellFormed id deviceKey sub = false).
Proof.
  unfold allWellFormed. split.
  - intros H. apply Bool.not_true_iff_false in H.
    induction buckets as [| bucket buckets IH]; simpl in H; [now elim H |].
    destruct (hasNested bucket) eqn:Hn;
      [| left; exists bucket; split; [now left | exact Hn]].
    destruct (forallb (wellFormed id deviceKey) (seg_segments bucket)) eqn:Hb.
    + destruct IH as [(b & Hin & Hb') | (b & sub & Hin & Hs & Hwf)]; [exact H | |].
      * left. exists b. split; [now right | exact Hb'].
      * right. exists b, sub. split; [now right | now split].
    + clear H IH. right. exists bucket.
      induction (seg_segments bucket) as [| sub subs IHs]; simpl in Hb; [discriminate |].
      destruct (wellFormed id deviceKey sub) eqn:Hwf.
      * destruct (IHs Hb) as (sub' & _ & Hs & Hwf').
        exists sub'. split; [now left | split; [now right | exact Hwf']].
      * exists sub. split; [now left | split; [now left | exact Hwf]].
  - intros H. apply Bool.not_true_iff_false. intros Hall.
    rewrite forallb_forall in Hall.
    destruct H as [(bucket & Hb & Hn) | (bucket & sub & Hb & Hs & Hwf)];
      specialize (Hall bucket Hb); apply andb_true_iff in Hall;
      destruct Hall as [Hn' Hall]; [congruence |].
    rewrite forallb_forall in Hall. specialize (Hall sub Hs). congruence.
Qed.

(** The fan-out returns exactly on responses whose buckets all have their
    nested array and whose sub-aggregates are all well-formed, and then
    returns the grouping of their readings; on any other response it throws
    [TypeError]. *)
Lemma fanOut_characterised (id deviceKey : string) (buckets : list Segment) :
  _processIndividualDeviceUsage id deviceKey buckets
  = if allWellFormed id deviceKey buckets
    then Normal (fold_left file (readings id deviceKey buckets) JsObject.empty)
    else Throw TypeError.
Proof.
  destruct (allWellFormed id deviceKey buckets) eqn:Hwf.
  - apply allWellFormed_spec in Hwf. destruct Hwf as [Hn Hwf].
    now apply fanOut_returns.
  - destruct (_processIndividualDeviceUsage id deviceKey buckets) as [usages | []] eqn:E;
      [| reflexivity].
    apply fanOut_returned_wellFormed in E. congruence.
Qed.

(* ================================================================== *)
(** * Properties of the reshaper *)

Lemma getDateAvg_bounds (s e : Z) :
  (Z.even (s + e) = true -> 2 * _getDateAvg s e = s + e) /\
  Z.abs (s + e - 2 * _getDateAvg s e) <= 1 /\
  (s + 2 <= e -> s < _getDateAvg s e < e).
Proof.
  unfold _getDateAvg. rewrite (Z.add_comm e s).
  pose proof (Z.quot_rem' (s + e) 2) as Hq.
  pose proof (Z.rem_bound_abs (s + e) 2 ltac:(lia)) as Hr.
  split; [| split].
  - intros Hev. apply Z.even_spec in Hev. destruct Hev as [k Hk].
    rewrite Hk, (Z.mul_comm 2 k), Z.quot_mul by lia. lia.
  - lia.
  - lia.
Qed.

(** C5, as stated, fails when [start + end] is odd: the sample's time is
    half a millisecond short of the midpoint, and on a bucket one
    millisecond long it is the bucket's start. *)
Lemma C5_one_millisecond_bucket_keeps_start :
  _processIndividualDeviceUsage
    "individualCpuUsage" "customDimensions/CPU #"
    [ bucketOf 0 1 [ deviceAggregate "customMetrics/Cpu usage" 10
                                     "customDimensions/CPU #" "0" ];
      bucketOf 1 60000 [ deviceAggregate "customMetrics/Cpu usage" 20
                                         "customDimensions/CPU #" "0" ] ]
  = Normal [ ("0", [ {| time := 0; value := JNumber 10 |};
                     {| time := 30000; value := JNumber 20 |} ]) ] /\
  _getDateAvg 0 1 = 0 /\
  2 * _getDateAvg 0 1 <> 0 + 1 /\
  2 * _getDateAvg 1 60000 <> 1 + 60000.
Proof.
  split; [vm_compute; reflexivity |].
  split; [reflexivity | split; discriminate].
Qed.

Lemma flatSamples_sound (buckets : list Segment) (index : nat) (samples : list Sample) :
  flatSamples index buckets = inl samples ->
  Forall2 (fun bucket sample =>
             time sample = _getDateAvg (start bucket) (end_ bucket) /\
             value sample = seg_value bucket)
          buckets samples.
Proof.
  revert index samples. induction buckets as [| bucket buckets IH];
    intros index samples; simpl.
  - intros H. injection H as <-. constructor.
  - destruct (flatSamples (S index) buckets) as [rest | failing] eqn:E.
    + intros H. specialize (IH (S index) rest E).
      destruct (seg_value bucket) eqn:V; try discriminate;
        injection H as <-; constructor; try exact IH; now split.
    + intros H. destruct (seg_value bucket); discriminate.
Qed.

Lemma flatSamples_complete (buckets : list Segment) (index : nat) :
  Forall (fun bucket => seg_value bucket <> JUndefined) buckets ->
  exists samples, flatSamples index buckets = inl samples.
Proof.
  revert index. induction buckets as [| bucket buckets IH]; intros index H; simpl.
  - eauto.
  - inversion H as [| ? ? Hb Hrest]. subst.
    destruct (IH (S index) Hrest) as [rest ->].
    destruct (seg_value bucket); try congruence; eauto.
Qed.

Lemma flatSamples_failure (pre post : list Segment) (bucket : Segment) (index : nat) :
  Forall (fun bucket => seg_value bucket <> JUndefined) pre ->
  seg_value bucket = JUndefined ->
  flatSamples index (pre ++ bucket :: post) = inr (index + List.length pre)%nat.
Proof.
  revert index. induction pre as [| b pre IH]; intros index Hpre Hb; simpl.
  - rewrite Hb. f_equal. lia.
  - inversion Hpre as [| ? ? Hv Hrest]. subst.
    rewrite (IH (S index) Hrest Hb).
    destruct (seg_value b); try congruence; f_equal; lia.
Qed.

Lemma seriesOf_occurrences (id deviceKey dev : string) (buckets : list Segment) :
  Forall2 (fun occurrence sample =>
             sample = sampleOf id (_getDateAvg (start (fst occurrence))
                                               (end_ (fst occurrence)))
                               (snd occurrence))
          (occurrences deviceKey dev buckets)
          (seriesOf id deviceKey dev buckets).
Proof.
  unfold occurrences, seriesOf.
  induction buckets as [| bucket buckets IH]; simpl; [constructor |].
  apply Forall2_app; [| exact IH].
  induction (List.filter (fun sub => String.eqb (deviceOf deviceKey sub) dev)
                         (seg_segments bucket)) as [| sub subs IHs]; simpl;
    constructor; [reflexivity | exact IHs].
Qed.

(** C5, amended.  The time of every reshaped sample is the midpoint of its
    own bucket's start and end truncated to a whole millisecond: exactly
    [(start + end) / 2] when [start + end] is even, never more than half a
    millisecond away from it, and strictly between start and end when the
    bucket is at least two milliseconds long.  In the fan-out the samples of
    a device match, one for one and in order, the sub-aggregates of that
    device, each sample bearing the time of the bucket its sub-aggregate
    lies in; in the flat series the samples match the buckets one for one.
    The flat buckets [[0,60) -> 5] and [[60,120) -> 7] reshape to the
    samples [(30, 5)] and [(90, 7)]. *)
Theorem C5_sample_time_is_truncated_midpoint :
  (forall s e : Z,
      (Z.even (s + e) = true -> 2 * _getDateAvg s e = s + e) /\
      Z.abs (s + e - 2 * _getDateAvg s e) <= 1 /\
      (s + 2 <= e -> s < _getDateAvg s e < e)) /\
  (forall id deviceKey buckets usages dev series,
      _processIndividualDeviceUsage id deviceKey buckets = Normal usages ->
      JsObject.get usages dev = Some series ->
      Forall2 (fun occurrence sample =>
                 time sample = _getDateAvg (start (fst occurrence))
                                           (end_ (fst occurrence)))
              (occurrences deviceKey dev buckets) series) /\
  _processIndividualDeviceUsage
    "individualCpuUsage" "customDimensions/CPU #"
    [ bucketOf 0 60 [ deviceAggregate "customMetrics/Cpu usage" 5
                                      "customDimensions/CPU #" "0" ];
      bucketOf 60 120 [ deviceAggregate "customMetrics/Cpu usage" 7
                                        "customDimensions/CPU #" "0" ] ]
  = Normal [ ("0", [ {| time := 30; value := JNumber 5 |};
                     {| time := 90; value := JNumber 7 |} ]) ] /\
  (forall metric data series,
      flatSeries metric data = PerformanceSeries series ->
      Forall2 (fun bucket sample =>
                 time sample = _getDateAvg (start bucket) (end_ bucket) /\
                 value sample = seg_value bucket)
              (segments data) series) /\
  (forall metric data,
      Forall (fun bucket => seg_value bucket <> JUndefined) (segments data) ->
      exists series, flatSeries metric data = PerformanceSeries series) /\
  (forall metric,
      flatSeries metric {| segments := [ flatBucket 0 60 5; flatBucket 60 120 7 ] |}
      = PerformanceSeries [ {| time := 30; value := JNumber 5 |};
                            {| time := 90; value := JNumber 7 |} ]).
Proof.
  split; [exact getDateAvg_bounds |]. split; [| split; [| split; [| split]]].
  - intros id deviceKey buckets usages dev series Hrun Hget.
    apply fanOut_returned in Hrun.
    destruct (grouping_shape id deviceKey buckets) as [_ Hshape].
    rewrite <- Hrun in Hshape. rewrite Hshape in Hget.
    destruct (existsb _ _); [| discriminate]. injection Hget as <-.
    eapply Forall2_impl; [| apply seriesOf_occurrences].
    intros occurrence sample ->. reflexivity.
  - vm_compute. reflexivity.
  - intros metric data series. unfold flatSeries.
    destruct (flatSamples 0 (segments data)) as [samples |] eqn:E; [| discriminate].
    intros H. injection H as <-. now apply (flatSamples_sound _ 0).
  - intros metric data Hall. unfold flatSeries.
    destruct (flatSamples_complete (segments data) 0 Hall) as [samples ->]. eauto.
  - intros metric. reflexivity.
Qed.

Lemma C5_sample_time_witness :
  2 * _getDateAvg 0 60 = 0 + 60 /\
  0 < _getDateAvg 0 60 < 60 /\
  Forall2 (fun occurrence sample =>
             time sample = _getDateAvg (start (fst occurrence))
                                       (end_ (fst occurrence)))
          (occurrences "customDimensions/CPU #" "0"
             [ bucketOf 0 60 [ deviceAggregate "customMetrics/Cpu usage" 10
                                               "customDimensions/CPU #" "0" ] ])
          [ {| time := 30; value := JNumber 10 |} ].
Proof.
  destruct C5_sample_time_is_truncated_midpoint as (Hmid & Hfan & _).
  destruct (Hmid 0 60) as (Heven & _ & Hbetween).
  split; [apply Heven; reflexivity |].
  split; [apply Hbetween; lia |].
  apply (Hfan "individualCpuUsage" "customDimensions/CPU #"
              [ bucketOf 0 60 [ deviceAggregate "customMetrics/Cpu usage" 10
                                                "customDimensions/CPU #" "0" ] ]
              [ ("0", [ {| time := 30; value := JNumber 10 |} ]) ]
              "0" [ {| time := 30; value := JNumber 10 |} ]).
  - vm_compute. reflexivity.
  - reflexivity.
Defined.

Example flat_series_surfaces_a_missing_value :
  flatSeries None {| segments := [ flatBucket 0 60 5;
                                   bucketOf 60 120 [];
                                   flatBucket 120 180 7 ] |}
  = MalformedPayloadError None 1.
Proof. reflexivity. Qed.

Section KeyOrder.

Lemma insertIndex_perm (n : N) (l : list N) :
  Permutation (JsObject.insertIndex n l) (n :: l).
Proof.
  induction l as [| m l IH]; simpl; [reflexivity |].
  destruct (n <=? m)%N; [reflexivity |].
  rewrite IH. apply perm_swap.
Qed.

Lemma sortIndices_perm (l : list N) : Permutation (JsObject.sortIndices l) l.
Proof.
  induction l as [| n l IH]; simpl; [reflexivity |].
  rewrite insertIndex_perm. now constructor.
Qed.

Lemma insertIndex_sorted (n : N) (l : list N) :
  StronglySorted N.le l -> StronglySorted N.le (JsObject.insertIndex n l).
Proof.
  induction l as [| m l IH]; simpl; intros H.
  - repeat constructor.
  - apply StronglySorted_inv in H. destruct H as [Hs Hm].
    destruct (N.leb_spec n m) as [Hle | Hgt].
    + constructor; [now constructor |].
      constructor; [exact Hle |].
      apply Forall_forall. intros x Hx. rewrite Forall_forall in Hm.
      specialize (Hm x Hx). lia.
    + constructor; [now apply IH |].
      apply Forall_forall. intros x Hx.
      apply (Permutation_in _ (insertIndex_perm n l)) in Hx.
      destruct Hx as [<- | Hx]; [lia |].
      rewrite Forall_forall in Hm. now apply Hm.
Qed.

Lemma sortIndices_sorted (l : list N) : StronglySorted N.le (JsObject.sortIndices l).
Proof.
  induction l as [| n l IH]; simpl; [constructor | now apply insertIndex_sorted].
Qed.

Lemma arrayIndex_canonical (name : string) (n : N) :
  arrayIndex name = Some n -> toString (Z.of_N n) = name.
Proof.
  unfold arrayIndex. destruct (NilEmpty.uint_of_string name) as [u |]; [| discriminate].
  destruct (String.eqb_spec (toString (Z.of_N (N.of_uint u))) name) as [E | _];
    simpl; [| discriminate].
  destruct (N.of_uint u <=? 4294967294)%N; [| discriminate].
  intros H. now injection H as <-.
Qed.

Lemma ownKeyOrder_unsorted (names : list string) :
  Permutation (map (fun n => toString (Z.of_N n)) (JsObject.indexNames names)
               ++ JsObject.otherNames names)%list
              names.
Proof.
  unfold JsObject.indexNames, JsObject.otherNames.
  induction names as [| k names IH]; simpl; [constructor |].
  destruct (arrayIndex k) as [n |] eqn:E; simpl.
  - rewrite (arrayIndex_canonical k n E). now constructor.
  - rewrite <- Permutation_middle. now constructor.
Qed.

Lemma ownKeyOrder_perm (names : list string) :
  Permutation (JsObject.ownKeyOrder names) names.
Proof.
  unfold JsObject.ownKeyOrder.
  rewrite (Permutation_map _ (sortIndices_perm (JsObject.indexNames names))).
  apply ownKeyOrder_unsorted.
Qed.

Lemma keys_In {V : Type} (o : JsObject.t V) (k : string) :
  In k (JsObject.keys o) <-> In k (JsObject.created o).
Proof.
  unfold JsObject.keys. split; apply Permutation_in;
    [| apply Permutation_sym]; apply ownKeyOrder_perm.
Qed.

End KeyOrder.

(** C6, as stated, fails twice on one response: the devices are first seen
    in the order "1", "0", yet the object lists its keys as "0", "1"; and
    the sample of the bucket from 0 to 1 bears the time 0, which is not that
    bucket's midpoint. *)
Lemma C6_numeral_keys_are_listed_ascending :
  _processIndividualDeviceUsage
    "individualGpuUsage" "customDimensions/GPU #"
    [ bucketOf 0 1
        [ deviceAggregate "customMetrics/Gpu usage" 10 "customDimensions/GPU #" "1" ];
      bucketOf 1 60000
        [ deviceAggregate "customMetrics/Gpu usage" 20 "customDimensions/GPU #" "0";
          deviceAggregate "customMetrics/Gpu usage" 30 "customDimensions/GPU #" "1" ] ]
  = Normal [ ("1", [ {| time := 0; value := JNumber 10 |};
                     {| time := 30000; value := JNumber 30 |} ]);
             ("0", [ {| time := 30000; value := JNumber 20 |} ]) ] /\
  JsObject.keys [ ("1", [ {| time := 0; value := JNumber 10 |};
                          {| time := 30000; value := JNumber 30 |} ]);
                  ("0", [ {| time := 30000; value := JNumber 20 |} ]) ]
  = [ "0"; "1" ] /\
  firstSeen [ "1"; "0"; "1" ] = [ "1"; "0" ] /\
  [ "0"; "1" ] <> [ "1"; "0" ] /\
  2 * 0 <> 0 + 1.
Proof.
  split; [vm_compute; reflexivity |].
  split; [vm_compute; reflexivity |].
  split; [reflexivity |].
  split; discriminate.
Qed.

(** C6, amended.  On a response whose buckets all have their nested array
    and whose sub-aggregates are all well-formed, the fan-out returns an
    object with one key per distinct device observed, each key created on
    first sight.  [Object.keys] lists these keys with the array-index
    (numeral) ones first, in ascending numeric order, followed by the
    others in first-seen order.  Under each key are the samples of that
    device only, bucket by bucket in response order, each at the time
    [_getDateAvg] gives its bucket (the midpoint truncated to a whole
    millisecond): a bucket in which the device is absent adds nothing.
    One bucket with devices 0 (avg 10) and 1 (avg 20) gives the keys "0"
    and "1" with one sample each; a device present in the first bucket and
    absent from the second has a series of length 1. *)
Theorem C6_fan_out_groups_by_device :
  (forall id deviceKey buckets,
      (forall bucket, In bucket buckets -> seg_nested bucket <> None) ->
      (forall bucket sub, In bucket buckets -> In sub (seg_segments bucket) ->
                          wellFormed id deviceKey sub = true) ->
      exists usages,
        _processIndividualDeviceUsage id deviceKey buckets = Normal usages /\
        JsObject.created usages
        = firstSeen (map fst (readings id deviceKey buckets)) /\
        NoDup (JsObject.keys usages) /\
        (forall dev,
            In dev (JsObject.keys usages)
            <-> exists bucket sub,
                In bucket buckets /\ In sub (seg_segments bucket) /\
                deviceOf deviceKey sub = dev) /\
        (exists indices,
            JsObject.keys usages
            = (map (fun n => toString (Z.of_N n)) indices
               ++ List.filter (fun dev => match arrayIndex dev with
                                          | Some _ => false
                                          | None => true
                                          end)
                              (firstSeen (map fst (readings id deviceKey buckets))))%list /\
            StronglySorted N.le indices) /\
        (forall dev,
            In dev (JsObject.keys usages) ->
            JsObject.get usages dev = Some (seriesOf id deviceKey dev buckets)) /\
        (forall dev,
            ~ In dev (JsObject.keys usages) -> JsObject.get usages dev = None)) /\
  (exists usages,
      _processIndividualDeviceUsage
        "individualCpuUsage" "customDimensions/CPU #"
        [ bucketOf 0 60
            [ deviceAggregate "customMetrics/Cpu usage" 10 "customDimensions/CPU #" "0";
              deviceAggregate "customMetrics/Cpu usage" 20 "customDimensions/CPU #" "1" ] ]
      = Normal usages /\
      JsObject.keys usages = [ "0"; "1" ] /\
      JsObject.get usages "0" = Some [ {| time := 30; value := JNumber 10 |} ] /\
      JsObject.get usages "1" = Some [ {| time := 30; value := JNumber 20 |} ]) /\
  (exists usages,
      _processIndividualDeviceUsage
        "individualCpuUsage" "customDimensions/CPU #"
        [ bucketOf 0 60
            [ deviceAggregate "customMetrics/Cpu usage" 10 "customDimensions/CPU #" "0";
              deviceAggregate "customMetrics/Cpu usage" 20 "customDimensions/CPU #" "1" ];
          bucketOf 60 120
            [ deviceAggregate "customMetrics/Cpu usage" 30 "customDimensions/CPU #" "1" ] ]
      = Normal usages /\
      JsObject.get usages "0" = Some [ {| time := 30; value := JNumber 10 |} ] /\
      JsObject.get usages "1" = Some [ {| time := 30; value := JNumber 20 |};
                                       {| time := 90; value := JNumber 30 |} ]).
Proof.
  split; [| split; eexists; (split; [vm_compute; reflexivity |]);
            repeat split; vm_compute; reflexivity].
  intros id deviceKey buckets Hnested Hwf.
  exists (fold_left file (readings id deviceKey buckets) JsObject.empty).
  destruct (grouping_shape id deviceKey buckets) as [Hcreated Hget].
  set (usages := fold_left file (readings id deviceKey buckets) JsObject.empty) in *.
  assert (Hin : forall dev,
             In dev (JsObject.keys usages)
             <-> In dev (map fst (readings id deviceKey buckets))).
  { intros dev. rewrite keys_In, Hcreated. apply firstSeen_In. }
  split.
  { apply fanOut_returns; [| exact Hwf].
    intros bucket Hb. specialize (Hnested bucket Hb). unfold hasNested.
    destruct (seg_nested bucket); [reflexivity | congruence]. }
  split; [exact Hcreated |].
  split.
  { eapply Permutation_NoDup.
    - apply Permutation_sym. apply ownKeyOrder_perm.
    - rewrite Hcreated. apply firstSeen_NoDup. }
  split; [intros dev; rewrite Hin; apply devices_readings |].
  split.
  { exists (JsObject.sortIndices
              (JsObject.indexNames (firstSeen (map fst (readings id deviceKey buckets))))).
    split; [| apply sortIndices_sorted].
    unfold JsObject.keys. rewrite Hcreated. reflexivity. }
  split.
  - intros dev Hdev. rewrite Hget. apply Hin in Hdev.
    destruct (existsb _ _) eqn:E; [reflexivity |].
    exfalso. apply Bool.not_true_iff_false in E. apply E.
    apply existsb_exists. exists dev. split; [exact Hdev | apply String.eqb_refl].
  - intros dev Hout. apply get_none_iff. intros Hc. apply Hout.
    now apply keys_In.
Qed.

Lemma C6_fan_out_witness :
  exists usages,
    _processIndividualDeviceUsage
      "individualGpuUsage" "customDimensions/GPU #"
      [ bucketOf 0 60
          [ deviceAggregate "customMetrics/Gpu usage" 10 "customDimensions/GPU #" "1" ];
        bucketOf 60 120
          [ deviceAggregate "customMetrics/Gpu usage" 20 "customDimensions/GPU #" "0";
            deviceAggregate "customMetrics/Gpu usage" 30 "customDimensions/GPU #" "1" ] ]
    = Normal usages /\
    JsObject.created usages = [ "1"; "0" ] /\
    JsObject.keys usages = [ "0"; "1" ].
Proof.
  destruct (proj1 C6_fan_out_groups_by_device
                  "individualGpuUsage" "customDimensions/GPU #"
                  [ bucketOf 0 60
                      [ deviceAggregate "customMetrics/Gpu usage" 10
                                        "customDimensions/GPU #" "1" ];
                    bucketOf 60 120
                      [ deviceAggregate "customMetrics/Gpu usage" 20
                                        "customDimensions/GPU #" "0";
                        deviceAggregate "customMetrics/Gpu usage" 30
                                        "customDimensions/GPU #" "1" ] ])
    as (usages & Hrun & Hcreated & _).
  - intros bucket [<- | [<- | []]]; discriminate.
  - intros bucket sub [<- | [<- | []]] Hsub; simpl in Hsub;
      repeat (destruct Hsub as [<- | Hsub]; [vm_compute; reflexivity |]);
      contradiction.
  - exists usages. split; [exact Hrun |].
    unfold JsObject.keys. rewrite Hcreated. split; vm_compute; reflexivity.
Defined.

(** C8, as stated, fails: a sub-aggregate without its device dimension
    raises nothing.  Its sample is filed under the key ["undefined"]. *)
Lemma C8_missing_device_dimension_is_filed :
  _processIndividualDeviceUsage
    "individualCpuUsage" "customDimensions/CPU #"
    [ bucketOf 0 60
        [ [ ("customMetrics/Cpu usage", JObject [("avg", JNumber 10)]) ] ] ]
  = Normal [ ("undefined", [ {| time := 30; value := JNumber 10 |} ]) ].
Proof. vm_compute. reflexivity. Qed.

(** C8, amended.  The fan-out validates nothing and raises no
    MalformedPayloadError.  A sub-aggregate whose field named after the
    upstream metric identifier is missing or null, a bucket without its
    nested array, and a device that is a name inherited from
    [Object.prototype] each make the reshaping throw the runtime's
    [TypeError], which carries neither metric key nor bucket index.  In
    every other case the reshaping returns, and every sub-aggregate of every
    bucket has its sample in the series of its device key, with the value
    as read: a missing device dimension files the sample under
    ["undefined"], a missing [avg] yields the value [undefined]; nothing is
    dropped and nothing is turned into zero. *)
Theorem C8_malformed_sub_aggregates
        (id deviceKey name : string) (buckets : list Segment) :
  _getAppInsightsMetricId id = Normal name ->
  (forall bucket sub,
      In bucket buckets -> In sub (seg_segments bucket) ->
      field sub name = JUndefined \/ field sub name = JNull ->
      _processIndividualDeviceUsage id deviceKey buckets = Throw TypeError) /\
  (forall bucket,
      In bucket buckets -> seg_nested bucket = None ->
      _processIndividualDeviceUsage id deviceKey buckets = Throw TypeError) /\
  (forall bucket sub,
      In bucket buckets -> In sub (seg_segments bucket) ->
      JsObject.isInherited (toPropertyKey (field sub deviceKey)) = true ->
      _processIndividualDeviceUsage id deviceKey buckets = Throw TypeError) /\
  ((forall bucket, In bucket buckets -> seg_nested bucket <> None) ->
   (forall bucket sub,
       In bucket buckets -> In sub (seg_segments bucket) ->
       field sub name <> JUndefined /\ field sub name <> JNull /\
       JsObject.isInherited (toPropertyKey (field sub deviceKey)) = false) ->
   exists usages,
     _processIndividualDeviceUsage id deviceKey buckets = Normal usages /\
     forall bucket sub,
       In bucket buckets -> In sub (seg_segments bucket) ->
       exists v series,
         avg (field sub name) = Normal v /\
         JsObject.get usages (toPropertyKey (field sub deviceKey)) = Some series /\
         In {| time := _getDateAvg (start bucket) (end_ bucket); value := v |} series /\
         (JsObject.get sub deviceKey = None ->
          toPropertyKey (field sub deviceKey) = "undefined") /\
         (forall fields,
             field sub name = JObject fields ->
             JsObject.get fields "avg" = None -> v = JUndefined)).
Proof.
  intros Hname.
  assert (Hread : forall sub, readAvg id sub = avg (field sub name)).
  { intros sub. unfold readAvg. now rewrite Hname. }
  rewrite fanOut_characterised.
  split; [| split; [| split]].
  - intros bucket sub Hb Hs Hmissing.
    assert (E : allWellFormed id deviceKey buckets = false).
    { apply allWellFormed_false. right. exists bucket, sub.
      split; [exact Hb |]. split; [exact Hs |].
      unfold wellFormed. rewrite Hread.
      destruct Hmissing as [-> | ->]; reflexivity. }
    now rewrite E.
  - intros bucket Hb Hnone.
    assert (E : allWellFormed id deviceKey buckets = false).
    { apply allWellFormed_false. left. exists bucket.
      split; [exact Hb |]. unfold hasNested. now rewrite Hnone. }
    now rewrite E.
  - intros bucket sub Hb Hs Hinh.
    assert (E : allWellFormed id deviceKey buckets = false).
    { apply allWellFormed_false. right. exists bucket, sub.
      split; [exact Hb |]. split; [exact Hs |].
      unfold wellFormed, deviceOf. rewrite Hinh.
      destruct (readAvg id sub); reflexivity. }
    now rewrite E.
  - intros Hnested Hwf.
    assert (Havg : forall bucket sub,
               In bucket buckets -> In sub (seg_segments bucket) ->
               avg (field sub name) = Normal (valueOf id sub)).
    { intros bucket sub Hb Hs. destruct (Hwf bucket sub Hb Hs) as (Hu & Hn & _).
      unfold valueOf. rewrite Hread.
      destruct (field sub name); try reflexivity; congruence. }
    assert (E : allWellFormed id deviceKey buckets = true).
    { apply allWellFormed_spec. split.
      - intros bucket Hb. specialize (Hnested bucket Hb). unfold hasNested.
        destruct (seg_nested bucket); [reflexivity | congruence].
      - intros bucket sub Hb Hs. destruct (Hwf bucket sub Hb Hs) as (_ & _ & Hd).
        unfold wellFormed, deviceOf. rewrite Hread, (Havg bucket sub Hb Hs), Hd.
        reflexivity. }
    rewrite E. eexists. split; [reflexivity |].
    intros bucket sub Hb Hs.
    destruct (grouping_shape id deviceKey buckets) as [_ Hget].
    exists (valueOf id sub), (seriesOf id deviceKey (deviceOf deviceKey sub) buckets).
    split; [now apply (Havg bucket) |]. split; [| split; [| split]].
    + fold (deviceOf deviceKey sub). rewrite Hget.
      destruct (existsb _ _) eqn:Ex; [reflexivity |].
      exfalso. apply Bool.not_true_iff_false in Ex. apply Ex.
      apply existsb_exists. exists (deviceOf deviceKey sub).
      split; [| apply String.eqb_refl].
      apply devices_readings. now exists bucket, sub.
    + unfold seriesOf. apply in_flat_map. exists bucket. split; [exact Hb |].
      apply in_map_iff. exists sub. split; [reflexivity |].
      apply filter_In. split; [exact Hs | apply String.eqb_refl].
    + intros Hnone. unfold field. now rewrite Hnone.
    + intros fields Hfields Hnone.
      pose proof (Havg bucket sub Hb Hs) as Hv.
      rewrite Hfields in Hv. simpl in Hv.
      unfold field in Hv. rewrite Hnone in Hv. now injection Hv as <-.
Qed.

Lemma C8_malformed_sub_aggregates_witness :
  _processIndividualDeviceUsage
    "individualGpuMemory" "customDimensions/GPU #"
    [ bucketOf 0 60
        [ deviceAggregate "customMetrics/Gpu memory usage" 10 "customDimensions/GPU #" "0";
          [ ("customDimensions/GPU #", JString "1") ] ] ]
  = Throw TypeError /\
  exists usages,
    _processIndividualDeviceUsage
      "individualGpuMemory" "customDimensions/GPU #"
      [ bucketOf 0 60
          [ [ ("customMetrics/Gpu memory usage", JObject [("avg", JNumber 10)]) ] ] ]
    = Normal usages.
Proof.
  split.
  - destruct (C8_malformed_sub_aggregates
                "individualGpuMemory" "customDimensions/GPU #"
                "customMetrics/Gpu memory usage"
                [ bucketOf 0 60
                    [ deviceAggregate "customMetrics/Gpu memory usage" 10
                                      "customDimensions/GPU #" "0";
                      [ ("customDimensions/GPU #", JString "1") ] ] ]
                eq_refl) as [Hthrow _].
    apply (Hthrow (bucketOf 0 60
                     [ deviceAggregate "customMetrics/Gpu memory usage" 10
                                       "customDimensions/GPU #" "0";
                       [ ("customDimensions/GPU #", JString "1") ] ])
                  [ ("customDimensions/GPU #", JString "1") ]).
    + left. reflexivity.
    + right. left. reflexivity.
    + left. reflexivity.
  - destruct (C8_malformed_sub_aggregates
                "individualGpuMemory" "customDimensions/GPU #"
                "customMetrics/Gpu memory usage"
                [ bucketOf 0 60
                    [ [ ("customMetrics/Gpu memory usage",
                         JObject [("avg", JNumber 10)]) ] ] ]
                eq_refl) as (_ & _ & _ & Hreturns).
    destruct Hreturns as (usages & Hrun & _).
    + intros bucket [<- | []]. discriminate.
    + intros bucket sub [<- | []] [<- | []].
      split; [discriminate | split; [discriminate | reflexivity]].
    + now exists usages.
Defined.

Example missing_avg_is_undefined :
  _processIndividualDeviceUsage
    "individualCpuUsage" "customDimensions/CPU #"
    [ bucketOf 0 60
        [ [ ("customMetrics/Cpu usage", JObject []);
            ("customDimensions/CPU #", JString "0") ] ] ]
  = Normal [ ("0", [ {| time := 30; value := JUndefined |} ]) ].
Proof. vm_compute. reflexivity. Qed.

(* ================================================================== *)
(** * Further properties of the fan-out *)

(** X1.  For a key and a device dimension that are not names inherited from
    [Object.prototype]: the fan-out returns exactly when every bucket has
    its nested array and every sub-aggregate is well-formed, that is, its
    averaged value can be read (the key is in the catalog and the field
    named after the upstream identifier is neither missing nor null) and
    its device is not a name inherited from [Object.prototype].  It throws
    [TypeError] exactly when some bucket lacks its nested array or some
    sub-aggregate is not well-formed. *)
Theorem X1_fan_out_returns_iff_well_formed
        (id deviceKey : string) (buckets : list Segment) :
  JsObject.isInherited id = false ->
  JsObject.isInherited deviceKey = false ->
  ((exists usages, _processIndividualDeviceUsage id deviceKey buckets = Normal usages)
   <-> forall bucket,
      In bucket buckets ->
      seg_nested bucket <> None /\
      forall sub,
        In sub (seg_segments bucket) ->
        (exists name v, _getAppInsightsMetricId id = Normal name /\
                        avg (field sub name) = Normal v) /\
        JsObject.isInherited (toPropertyKey (field sub deviceKey)) = false) /\
  (_processIndividualDeviceUsage id deviceKey buckets = Throw TypeError
   <-> exists bucket,
      In bucket buckets /\
      (seg_nested bucket = None \/
       exists sub, In sub (seg_segments bucket) /\
                   wellFormed id deviceKey sub = false)).
Proof.
  intros _ _.
  assert (Hwf : forall sub,
             wellFormed id deviceKey sub = true
             <-> (exists name v, _getAppInsightsMetricId id = Normal name /\
                                 avg (field sub name) = Normal v) /\
                 JsObject.isInherited (toPropertyKey (field sub deviceKey)) = false).
  { intros sub. unfold wellFormed, readAvg, deviceOf.
    destruct (_getAppInsightsMetricId id) as [name |]; simpl.
    - destruct (avg (field sub name)) as [v |] eqn:E; simpl.
      + rewrite negb_true_iff. split; [intros H; split; [now exists name, v | exact H] | tauto].
      + split; [discriminate |]. intros [(n & v & Hn & Hv) _].
        injection Hn as <-. congruence.
    - split; [discriminate |]. intros [(n & v & Hn & _) _]. discriminate. }
  assert (Hnested : forall bucket, hasNested bucket = true <-> seg_nested bucket <> None).
  { intros bucket. unfold hasNested.
    destruct (seg_nested bucket); split; congruence. }
  rewrite fanOut_characterised. split.
  - split.
    + intros [usages H] bucket Hb.
      destruct (allWellFormed id deviceKey buckets) eqn:E; [| discriminate].
      rewrite allWellFormed_spec in E. destruct E as [En Ew].
      split; [now apply Hnested, En |].
      intros sub Hs. apply Hwf. now apply (Ew bucket).
    + intros H.
      assert (E : allWellFormed id deviceKey buckets = true).
      { apply allWellFormed_spec. split.
        - intros bucket Hb. apply Hnested. now apply H.
        - intros bucket sub Hb Hs. apply Hwf. now apply (H bucket). }
      rewrite E. eauto.
  - assert (Hfalse : allWellFormed id deviceKey buckets = false
                     <-> exists bucket,
                       In bucket buckets /\
                       (seg_nested bucket = None \/
                        exists sub, In sub (seg_segments bucket) /\
                                    wellFormed id deviceKey sub = false)).
    { rewrite allWellFormed_false. split.
      - intros [(bucket & Hb & Hn) | (bucket & sub & Hb & Hs & Hw)].
        + exists bucket. split; [exact Hb |]. left.
          unfold hasNested in Hn. destruct (seg_nested bucket); congruence.
        + exists bucket. split; [exact Hb |]. right. now exists sub.
      - intros (bucket & Hb & [Hn | (sub & Hs & Hw)]).
        + left. exists bucket. split; [exact Hb |].
          unfold hasNested. now rewrite Hn.
        + right. now exists bucket, sub. }
    rewrite <- Hfalse.
    destruct (allWellFormed id deviceKey buckets); split; congruence.
Qed.

Lemma X1_fan_out_returns_witness :
  _processIndividualDeviceUsage
    "individualCpuUsage" "customDimensions/CPU #" [ flatBucket 0 60 5 ]
  = Throw TypeError.
Proof.
  apply (proj2 (X1_fan_out_returns_iff_well_formed
                  "individualCpuUsage" "customDimensions/CPU #" [ flatBucket 0 60 5 ]
                  eq_refl eq_refl)).
  exists (flatBucket 0 60 5). split; [now left | left; reflexivity].
Defined.

(** X2.  A sub-aggregate whose device is a name every object inherits from
    [Object.prototype] (such as "constructor") makes the whole fan-out throw
    [TypeError]: the [in] test finds the inherited member, no series is
    created, and the inherited member has no [push]. *)
Theorem X2_inherited_device_name_throws
        (id deviceKey : string) (buckets : list Segment)
        (bucket : Segment) (sub : JsObject.t JValue) :
  In bucket buckets -> In sub (seg_segments bucket) ->
  In (toPropertyKey (field sub deviceKey)) JsObject.inherited ->
  _processIndividualDeviceUsage id deviceKey buckets = Throw TypeError.
Proof.
  intros Hb Hs Hinh. rewrite fanOut_characterised.
  assert (E : allWellFormed id deviceKey buckets = false).
  { apply allWellFormed_false. right. exists bucket, sub. split; [exact Hb |].
    split; [exact Hs |]. unfold wellFormed, deviceOf.
    destruct (readAvg id sub); [| reflexivity].
    apply negb_false_iff. unfold JsObject.isInherited.
    apply existsb_exists. eexists. split; [exact Hinh | apply String.eqb_refl]. }
  now rewrite E.
Qed.

Lemma X2_inherited_device_name_witness :
  _processIndividualDeviceUsage
    "individualCpuUsage" "customDimensions/CPU #"
    [ bucketOf 0 60
        [ deviceAggregate "customMetrics/Cpu usage" 10 "customDimensions/CPU #" "0";
          deviceAggregate "customMetrics/Cpu usage" 20
                          "customDimensions/CPU #" "constructor" ] ]
  = Throw TypeError.
Proof.
  apply (X2_inherited_device_name_throws
           "individualCpuUsage" "customDimensions/CPU #" _
           (bucketOf 0 60
              [ deviceAggregate "customMetrics/Cpu usage" 10
                                "customDimensions/CPU #" "0";
                deviceAggregate "customMetrics/Cpu usage" 20
                                "customDimensions/CPU #" "constructor" ])
           (deviceAggregate "customMetrics/Cpu usage" 20
                            "customDimensions/CPU #" "constructor")).
  - left. reflexivity.
  - right. left. reflexivity.
  - left. reflexivity.
Defined.

Lemma totalSamples_app (u1 u2 : JsObject.t (list Sample)) :
  totalSamples (u1 ++ u2)%list = (totalSamples u1 + totalSamples u2)%nat.
Proof. unfold totalSamples. now rewrite map_app, list_sum_app. Qed.

Lemma totalSamples_file (usages : JsObject.t (list Sample)) (r : string * Sample) :
  totalSamples (file usages r) = S (totalSamples usages).
Proof.
  unfold file.
  destruct (JsObject.get usages (fst r)) as [series |] eqn:E.
  - revert E. unfold totalSamples.
    induction usages as [| [k s] usages IH]; simpl; [discriminate |].
    destruct (String.eqb k (fst r)); simpl.
    + intros H. injection H as ->. rewrite List.length_app. simpl. lia.
    + intros H. rewrite (IH H). lia.
  - rewrite totalSamples_app. unfold totalSamples. simpl. lia.
Qed.

Lemma totalSamples_fold (rs : list (string * Sample)) (usages : JsObject.t (list Sample)) :
  totalSamples (fold_left file rs usages) = (totalSamples usages + List.length rs)%nat.
Proof.
  revert usages. induction rs as [| r rs IH]; intros usages; simpl; [lia |].
  rewrite IH, totalSamples_file. lia.
Qed.

Lemma length_readings (id deviceKey : string) (buckets : list Segment) :
  List.length (readings id deviceKey buckets)
  = List.length (flat_map seg_segments buckets).
Proof.
  unfold readings, readingsOf.
  induction buckets as [| bucket buckets IH]; simpl; [reflexivity |].
  now rewrite !List.length_app, List.length_map, IH.
Qed.

(** X3.  Whenever the fan-out returns, the series it returns hold, taken
    together, exactly as many samples as the response has sub-aggregates:
    each sub-aggregate yields one sample, none is dropped, merged or
    repeated. *)
Theorem X3_fan_out_keeps_every_sample
        (id deviceKey : string) (buckets : list Segment)
        (usages : JsObject.t (list Sample)) :
  _processIndividualDeviceUsage id deviceKey buckets = Normal usages ->
  totalSamples usages = List.length (flat_map seg_segments buckets).
Proof.
  intros Hrun. apply fanOut_returned in Hrun. subst usages.
  rewrite totalSamples_fold, length_readings. reflexivity.
Qed.

Lemma X3_fan_out_keeps_every_sample_witness :
  totalSamples [ ("1", [ {| time := 30; value := JNumber 10 |};
                         {| time := 90; value := JNumber 30 |} ]);
                 ("0", [ {| time := 90; value := JNumber 20 |} ]) ]
  = 3%nat.
Proof.
  apply (X3_fan_out_keeps_every_sample
           "individualGpuUsage" "customDimensions/GPU #"
           [ bucketOf 0 60
               [ deviceAggregate "customMetrics/Gpu usage" 10 "customDimensions/GPU #" "1" ];
             bucketOf 60 120
               [ deviceAggregate "customMetrics/Gpu usage" 20 "customDimensions/GPU #" "0";
                 deviceAggregate "customMetrics/Gpu usage" 30 "customDimensions/GPU #" "1" ] ]).
  vm_compute. reflexivity.
Defined.

(** X4.  Whenever the fan-out returns, no sample is invented: every sample
    under a device key stems from a sub-aggregate of that very device, in
    some bucket of the response, with that bucket's midpoint time and the
    sub-aggregate's averaged value as read. *)
Theorem X4_fan_out_samples_have_a_source
        (id deviceKey : string) (buckets : list Segment)
        (usages : JsObject.t (list Sample)) (dev : string)
        (series : list Sample) (sample : Sample) :
  _processIndividualDeviceUsage id deviceKey buckets = Normal usages ->
  JsObject.get usages dev = Some series ->
  In sample series ->
  exists bucket sub name,
    In bucket buckets /\ In sub (seg_segments bucket) /\
    toPropertyKey (field sub deviceKey) = dev /\
    time sample = _getDateAvg (start bucket) (end_ bucket) /\
    _getAppInsightsMetricId id = Normal name /\
    avg (field sub name) = Normal (value sample).
Proof.
  intros Hrun Hget Hin.
  pose proof Hrun as Hshape. apply fanOut_returned in Hshape.
  destruct (grouping_shape id deviceKey buckets) as [_ Hg].
  rewrite <- Hshape in Hg. rewrite Hg in Hget.
  destruct (existsb _ _); [| discriminate]. injection Hget as <-.
  unfold seriesOf in Hin. apply in_flat_map in Hin.
  destruct Hin as (bucket & Hb & Hin). apply in_map_iff in Hin.
  destruct Hin as (sub & <- & Hs). apply filter_In in Hs.
  destruct Hs as [Hs Hdev]. apply String.eqb_eq in Hdev.
  pose proof (fanOut_returned_read id deviceKey _ _ _ _ Hrun Hb Hs) as Hread.
  unfold readAvg in Hread.
  destruct (_getAppInsightsMetricId id) as [name |] eqn:En; simpl in Hread;
    [| discriminate].
  exists bucket, sub, name. repeat split; assumption.
Qed.

Lemma X4_fan_out_samples_witness :
  exists bucket sub name,
    In bucket [ bucketOf 0 60
                  [ deviceAggregate "customMetrics/Cpu usage" 10
                                    "customDimensions/CPU #" "0" ] ] /\
    In sub (seg_segments bucket) /\
    toPropertyKey (field sub "customDimensions/CPU #") = "0" /\
    time {| time := 30; value := JNumber 10 |}
    = _getDateAvg (start bucket) (end_ bucket) /\
    _getAppInsightsMetricId "individualCpuUsage" = Normal name /\
    avg (field sub name) = Normal (value {| time := 30; value := JNumber 10 |}).
Proof.
  apply (X4_fan_out_samples_have_a_source
           "individualCpuUsage" "customDimensions/CPU #"
           [ bucketOf 0 60 [ deviceAggregate "customMetrics/Cpu usage" 10
                                             "customDimensions/CPU #" "0" ] ]
           [ ("0", [ {| time := 30; value := JNumber 10 |} ]) ]
           "0" [ {| time := 30; value := JNumber 10 |} ]).
  - vm_compute. reflexivity.
  - reflexivity.
  - left. reflexivity.
Defined.

Lemma seriesOf_times (id deviceKey dev : string) (buckets : list Segment) (t : Z) :
  In t (map time (seriesOf id deviceKey dev buckets)) -> In t (midpoints buckets).
Proof.
  unfold seriesOf, midpoints. intros H. apply in_map_iff in H.
  destruct H as (sample & <- & Hin). apply in_flat_map in Hin.
  destruct Hin as (bucket & Hb & Hin). apply in_map_iff in Hin.
  destruct Hin as (sub & <- & _). apply in_map_iff. now exists bucket.
Qed.

Lemma StronglySorted_app_le (l1 l2 : list Z) :
  StronglySorted Z.le l1 -> StronglySorted Z.le l2 ->
  (forall x y, In x l1 -> In y l2 -> x <= y) ->
  StronglySorted Z.le (l1 ++ l2).
Proof.
  induction l1 as [| a l1 IH]; simpl; intros H1 H2 H; [exact H2 |].
  apply StronglySorted_inv in H1. destruct H1 as [Hs Ha].
  constructor.
  - apply IH; [exact Hs | exact H2 | intros x y Hx Hy; apply H; tauto].
  - apply Forall_app. split; [exact Ha |].
    apply Forall_forall. intros y Hy. apply H; tauto.
Qed.

Lemma StronglySorted_constant (t : Z) (l : list Z) :
  (forall x, In x l -> x = t) -> StronglySorted Z.le l.
Proof.
  induction l as [| a l IH]; intros H; constructor.
  - apply IH. intros x Hx. apply H. now right.
  - apply Forall_forall. intros x Hx.
    rewrite (H a (or_introl eq_refl)), (H x (or_intror Hx)). lia.
Qed.

Lemma seriesOf_sorted (id deviceKey dev : string) (buckets : list Segment) :
  StronglySorted Z.le (midpoints buckets) ->
  StronglySorted Z.le (map time (seriesOf id deviceKey dev buckets)).
Proof.
  induction buckets as [| bucket buckets IH]; simpl; intros H; [constructor |].
  apply StronglySorted_inv in H. destruct H as [Hs Hb].
  change (seriesOf id deviceKey dev (bucket :: buckets))
    with ((map (sampleOf id (_getDateAvg (start bucket) (end_ bucket)))
               (List.filter (fun sub => String.eqb (deviceOf deviceKey sub) dev)
                            (seg_segments bucket)))
            ++ seriesOf id deviceKey dev buckets)%list.
  rewrite map_app.
  assert (Hconst : forall x,
             In x (map time
                       (map (sampleOf id (_getDateAvg (start bucket) (end_ bucket)))
                            (List.filter
                               (fun sub => String.eqb (deviceOf deviceKey sub) dev)
                               (seg_segments bucket))))
             -> x = _getDateAvg (start bucket) (end_ bucket)).
  { intros x Hx. rewrite map_map in Hx. apply in_map_iff in Hx.
    now destruct Hx as (sub & <- & _). }
  apply StronglySorted_app_le.
  - apply (StronglySorted_constant _ _ Hconst).
  - now apply IH.
  - intros x y Hx Hy. rewrite (Hconst x Hx).
    apply seriesOf_times in Hy. rewrite Forall_forall in Hb. now apply Hb.
Qed.

(** X5.  The fan-out keeps the response's order: when the midpoint times of
    the buckets do not decrease along the response, the times of every
    device's series do not decrease either. *)
Theorem X5_fan_out_series_are_chronological
        (id deviceKey : string) (buckets : list Segment)
        (usages : JsObject.t (list Sample)) (dev : string) (series : list Sample) :
  StronglySorted Z.le (midpoints buckets) ->
  _processIndividualDeviceUsage id deviceKey buckets = Normal usages ->
  JsObject.get usages dev = Some series ->
  StronglySorted Z.le (map time series).
Proof.
  intros Hsorted Hrun Hget. apply fanOut_returned in Hrun.
  destruct (grouping_shape id deviceKey buckets) as [_ Hg].
  rewrite <- Hrun in Hg. rewrite Hg in Hget.
  destruct (existsb _ _); [| discriminate]. injection Hget as <-.
  now apply seriesOf_sorted.
Qed.

Lemma X5_fan_out_series_witness :
  StronglySorted Z.le
    (map time [ {| time := 30; value := JNumber 10 |};
                {| time := 90; value := JNumber 30 |} ]).
Proof.
  apply (X5_fan_out_series_are_chronological
           "individualGpuUsage" "customDimensions/GPU #"
           [ bucketOf 0 60
               [ deviceAggregate "customMetrics/Gpu usage" 10 "customDimensions/GPU #" "1" ];
             bucketOf 60 120
               [ deviceAggregate "customMetrics/Gpu usage" 20 "customDimensions/GPU #" "0";
                 deviceAggregate "customMetrics/Gpu usage" 30 "customDimensions/GPU #" "1" ] ]
           [ ("1", [ {| time := 30; value := JNumber 10 |};
                     {| time := 90; value := JNumber 30 |} ]);
             ("0", [ {| time := 90; value := JNumber 20 |} ]) ]
           "1").
  - repeat constructor; vm_compute; discriminate.
  - vm_compute. reflexivity.
  - reflexivity.
Defined.

Lemma allWellFormed_app (id deviceKey : string) (b1 b2 : list Segment) :
  allWellFormed id deviceKey (b1 ++ b2)
  = (allWellFormed id deviceKey b1 && allWellFormed id deviceKey b2)%bool.
Proof. unfold allWellFormed. apply forallb_app. Qed.

Lemma sightings_app (dev : string) (r1 r2 : list (string * Sample)) :
  sightings dev (r1 ++ r2) = (sightings dev r1 ++ sightings dev r2)%list.
Proof. unfold sightings. now rewrite filter_app, map_app. Qed.

(** X6.  Reshaping a response split in two: when both parts reshape, so
    does their concatenation; every device's series is the series of the
    first part followed by the series of the second, and [Object.keys] of
    the whole holds exactly the keys of either part.  Conversely the whole
    reshapes only if both parts do. *)
Theorem X6_fan_out_of_concatenation
        (id deviceKey : string) (b1 b2 : list Segment) :
  (forall u1 u2,
      _processIndividualDeviceUsage id deviceKey b1 = Normal u1 ->
      _processIndividualDeviceUsage id deviceKey b2 = Normal u2 ->
      exists u,
        _processIndividualDeviceUsage id deviceKey (b1 ++ b2) = Normal u /\
        (forall dev, held u dev = (held u1 dev ++ held u2 dev)%list) /\
        (forall dev, In dev (JsObject.keys u)
                     <-> In dev (JsObject.keys u1) \/ In dev (JsObject.keys u2))) /\
  (forall u,
      _processIndividualDeviceUsage id deviceKey (b1 ++ b2) = Normal u ->
      (exists u1, _processIndividualDeviceUsage id deviceKey b1 = Normal u1) /\
      (exists u2, _processIndividualDeviceUsage id deviceKey b2 = Normal u2)).
Proof.
  rewrite !fanOut_characterised, allWellFormed_app. split.
  - intros u1 u2 H1 H2.
    destruct (allWellFormed id deviceKey b1); [| discriminate].
    destruct (allWellFormed id deviceKey b2); [| discriminate].
    injection H1 as <-. injection H2 as <-. simpl.
    eexists. split; [reflexivity |].
    unfold readings. rewrite flat_map_app. fold (readings id deviceKey b1).
    fold (readings id deviceKey b2). split.
    + intros dev. rewrite !held_fold, sightings_app. reflexivity.
    + intros dev. rewrite !keys_In.
      rewrite fold_left_app, created_fold.
      rewrite (created_fold (readings id deviceKey b2) JsObject.empty). simpl.
      rewrite (forallb_filter_id (unseen [])) by (apply forallb_forall; reflexivity).
      set (c1 := JsObject.created (fold_left file (readings id deviceKey b1)
                                             JsObject.empty)).
      rewrite in_app_iff, filter_In. split; [tauto |].
      intros [H | H]; [now left |].
      destruct (in_dec string_dec dev c1) as [Hin | Hout]; [now left |].
      right. split; [exact H |]. unfold unseen. apply negb_true_iff.
      apply Bool.not_true_iff_false. intros Hex. apply existsb_exists in Hex.
      destruct Hex as (x & Hx & Hd). apply String.eqb_eq in Hd. now subst x.
  - intros u H.
    destruct (allWellFormed id deviceKey b1); [| discriminate].
    destruct (allWellFormed id deviceKey b2); [| discriminate].
    split; eauto.
Qed.

Lemma X6_fan_out_of_concatenation_witness :
  exists u,
    _processIndividualDeviceUsage
      "individualGpuUsage" "customDimensions/GPU #"
      ([ bucketOf 0 60
           [ deviceAggregate "customMetrics/Gpu usage" 10 "customDimensions/GPU #" "1" ] ]
       ++ [ bucketOf 60 120
              [ deviceAggregate "customMetrics/Gpu usage" 20 "customDimensions/GPU #" "0";
                deviceAggregate "customMetrics/Gpu usage" 30 "customDimensions/GPU #" "1" ] ])
    = Normal u /\
    held u "1" = [ {| time := 30; value := JNumber 10 |};
                   {| time := 90; value := JNumber 30 |} ] /\
    In "0" (JsObject.keys u).
Proof.
  destruct (proj1 (X6_fan_out_of_concatenation
                     "individualGpuUsage" "customDimensions/GPU #"
                     [ bucketOf 0 60
                         [ deviceAggregate "customMetrics/Gpu usage" 10
                                           "customDimensions/GPU #" "1" ] ]
                     [ bucketOf 60 120
                         [ deviceAggregate "customMetrics/Gpu usage" 20
                                           "customDimensions/GPU #" "0";
                           deviceAggregate "customMetrics/Gpu usage" 30
                                           "customDimensions/GPU #" "1" ] ])
                  [ ("1", [ {| time := 30; value := JNumber 10 |} ]) ]
                  [ ("0", [ {| time := 90; value := JNumber 20 |} ]);
                    ("1", [ {| time := 90; value := JNumber 30 |} ]) ])
    as (u & Hrun & Hheld & Hkeys).
  - vm_compute. reflexivity.
  - vm_compute. reflexivity.
  - exists u. split; [exact Hrun |]. split.
    + rewrite Hheld. reflexivity.
    + apply Hkeys. right. vm_compute. now left.
Defined.

(* ================================================================== *)
(** * Further properties of the midpoint and of the interval *)

(** X7.  The midpoint time never leaves the bucket, whatever the sign and
    the order of its ends; it does not depend on the order of the two
    ends; it is the common value when they agree; and it does not decrease
    when the ends grow. *)
Theorem X7_midpoint_stays_inside (s e : Z) :
  Z.min s e <= _getDateAvg s e <= Z.max s e /\
  _getDateAvg s e = _getDateAvg e s /\
  _getDateAvg s s = s /\
  (forall s' e', s <= s' -> e <= e' -> _getDateAvg s e <= _getDateAvg s' e').
Proof.
  unfold _getDateAvg. split; [| split; [| split]].
  - pose proof (Z.quot_rem' (e + s) 2) as Hq.
    pose proof (Z.rem_bound_abs (e + s) 2 ltac:(lia)) as Hr.
    destruct (Z_le_gt_dec 0 (e + s)) as [Hpos | Hneg].
    + pose proof (Z.rem_nonneg (e + s) 2 ltac:(lia) Hpos). lia.
    + pose proof (Z.rem_nonpos (e + s) 2 ltac:(lia) ltac:(lia)). lia.
  - now rewrite Z.add_comm.
  - replace (s + s) with (s * 2) by lia. apply Z.quot_mul. lia.
  - intros s' e' Hs He. apply Z.quot_le_mono; lia.
Qed.

Lemma X7_midpoint_witness : _getDateAvg (-3) 0 <= _getDateAvg (-1) 4.
Proof.
  destruct (X7_midpoint_stays_inside (-3) 0) as (_ & _ & _ & Hmono).
  apply Hmono; lia.
Defined.

(** X8.  For every whole window of [w] minutes, of any sign, with [s] the
    seconds of the interval that [_computeInterval] renders: [s] is positive
    exactly when [w] is; the window never holds more than [numberOfPoints]
    intervals ([60 w <= 1000 s]); and the interval is less than 10 seconds
    coarser than that budget requires ([1000 s < 60 w + 10000]). *)
Theorem X8_interval_fits_the_point_budget (w : Z) :
  exists s : Z,
    _computeInterval w = "PT" ++ toString s ++ "S" /\
    (0 < s <-> 0 < w) /\
    60 * w <= 1000 * s < 60 * w + 10000.
Proof.
  exists (intervalInSeconds (inject_Z w)). split; [reflexivity |].
  rewrite interval_of_whole_window.
  pose proof (Z.div_mod (3 * w + 499) 500 ltac:(lia)) as H1.
  pose proof (Z.mod_pos_bound (3 * w + 499) 500 ltac:(lia)) as H2.
  lia.
Qed.

(* ================================================================== *)
(** * Further properties of the query builder *)

Lemma catalog_keys_distinct : NoDup (map fst metrics).
Proof.
  assert (H : nodup string_dec (map fst metrics) = map fst metrics)
    by (vm_compute; reflexivity).
  rewrite <- H. apply NoDup_nodup.
Qed.

Lemma catalog_lookup (id : string) :
  In id (JsObject.keys metrics) <-> exists metric, metrics_at id = Some metric.
Proof.
  rewrite keys_metrics. change (map fst metrics) with (JsObject.created metrics).
  unfold metrics_at. split.
  - intros Hin. destruct (JsObject.get metrics id) as [metric |] eqn:E; [eauto |].
    apply get_none_iff in E. contradiction.
  - intros [metric E].
    destruct (in_dec string_dec id (JsObject.created metrics)) as [Hin | Hout];
      [exact Hin |].
    apply get_none_iff in Hout. congruence.
Qed.

(** X9.  Two queries over the same window, whatever their pool and node,
    request the same metrics in the same order and agree on every parameter
    but the filter; the keys of a batch are pairwise distinct, so a
    response keyed by them is unambiguous. *)
Theorem X9_queries_differ_in_filter_only
        (toOData : Filter -> string) (pool1 pool2 : string)
        (node1 node2 : option string) (w : Z) :
  exists q1 q2,
    _buildQuery toOData pool1 node1 w = Normal q1 /\
    _buildQuery toOData pool2 node2 w = Normal q2 /\
    Forall2 (fun d1 d2 =>
               id d1 = id d2 /\
               aggregation (parameters d1) = aggregation (parameters d2) /\
               metricId (parameters d1) = metricId (parameters d2) /\
               interval (parameters d1) = interval (parameters d2) /\
               timespan (parameters d1) = timespan (parameters d2) /\
               q_segment (parameters d1) = q_segment (parameters d2) /\
               top (parameters d1) = top (parameters d2))
            q1 q2 /\
    NoDup (map id q1).
Proof.
  exists (map (descriptorFor toOData pool1 node1 w) metrics),
         (map (descriptorFor toOData pool2 node2 w) metrics).
  split; [apply buildQuery_returns |]. split; [apply buildQuery_returns |].
  split.
  - induction metrics as [| entry entries IH]; simpl; constructor;
      [repeat split | exact IH].
  - rewrite map_map. exact catalog_keys_distinct.
Qed.

(** X10.  Among the keys that are not names inherited from
    [Object.prototype], the lookup of the upstream identifier succeeds
    exactly on the catalog's keys and throws [TypeError] on any other; for
    every descriptor of a built query it returns the [metricId] the
    descriptor requests, so the reshaper reads the averaged value under the
    very identifier the builder asked for. *)
Theorem X10_lookup_matches_requested_metric
        (toOData : Filter -> string) (poolId : string) (nodeId : option string)
        (w : Z) :
  (forall key,
      JsObject.isInherited key = false ->
      ((exists name, _getAppInsightsMetricId key = Normal name)
       <-> In key (JsObject.keys metrics))) /\
  (forall key,
      JsObject.isInherited key = false ->
      ~ In key (JsObject.keys metrics) ->
      _getAppInsightsMetricId key = Throw TypeError) /\
  exists ds,
    _buildQuery toOData poolId nodeId w = Normal ds /\
    Forall (fun d => _getAppInsightsMetricId (id d)
                     = Normal (metricId (parameters d))) ds.
Proof.
  split; [| split].
  - intros key _. rewrite catalog_lookup. unfold _getAppInsightsMetricId.
    destruct (metrics_at key) as [metric |]; split.
    + intros _. eauto.
    + intros _. eauto.
    + intros [name H]. discriminate.
    + intros [metric H]. discriminate.
  - intros key _ Hout. unfold _getAppInsightsMetricId.
    destruct (metrics_at key) as [metric |] eqn:E; [| reflexivity].
    elim Hout. apply catalog_lookup. eauto.
  - exists (map (descriptorFor toOData poolId nodeId w) metrics).
    split; [apply buildQuery_returns |].
    apply Forall_forall. intros d Hd. apply in_map_iff in Hd.
    destruct Hd as (entry & <- & Hin).
    unfold descriptorFor. cbn [id parameters metricId].
    revert entry Hin. apply Forall_forall.
    repeat constructor.
Qed.

Lemma X10_lookup_witness :
  _getAppInsightsMetricId "cpuLoad" = Throw TypeError.
Proof.
  apply (proj1 (proj2 (X10_lookup_matches_requested_metric
                         renderOData "pool1" None 100))).
  - reflexivity.
  - vm_compute. intuition discriminate.
Defined.

(* ================================================================== *)
(** * Further properties of the reshaper *)

Lemma firstSeen_step (seen : list string) (k : string) (rest : list string) :
  ((if existsb (String.eqb k) seen then seen else seen ++ [k])
   ++ List.filter (unseen (if existsb (String.eqb k) seen then seen else seen ++ [k]))
                  rest)%list
  = (seen ++ List.filter (unseen seen)
                         (k :: List.filter (fun m => negb (String.eqb m k)) rest))%list.
Proof.
  assert (Hk : unseen seen k = negb (existsb (String.eqb k) seen)) by reflexivity.
  simpl. rewrite Hk.
  destruct (existsb (String.eqb k) seen) eqn:E; simpl.
  - f_equal. rewrite filter_filter_names. apply filter_ext_in.
    intros x _. unfold unseen.
    destruct (String.eqb_spec x k) as [-> | _]; simpl; [now rewrite E | reflexivity].
  - rewrite <- app_assoc. simpl. do 2 f_equal.
    rewrite filter_filter_names. apply filter_ext_in.
    intros x _. unfold unseen. rewrite existsb_app. simpl.
    rewrite orb_false_r, negb_orb. apply andb_comm.
Qed.

Section ReportFacts.

Context {T : Type}.
Variable process : option MetricDefinition -> AppInsightsMetricBody -> Completion T.

Implicit Types (performances report : JsObject.t (Performance T)).

Lemma processMetricResult_performanceOf performances (r : MetricResult) :
  processMetricResult process performances r
  = (v <- performanceOf process r ;;
     Normal (JsObject.set performances (mr_id r) v)).
Proof.
  unfold processMetricResult, performanceOf.
  destruct (String.eqb (mr_id r) "individualCpuUsage").
  - destruct (_processIndividualDeviceUsage _ _ _); reflexivity.
  - destruct (String.eqb (mr_id r) "individualGpuUsage"
              || String.eqb (mr_id r) "individualGpuMemory")%bool.
    + destruct (_processIndividualDeviceUsage _ _ _); reflexivity.
    + destruct (_processSegmentedMetric _ _ _); reflexivity.
Qed.

Lemma processMetrics_single (r : MetricResult) :
  _processMetrics process [r]
  = (v <- performanceOf process r ;; Normal [(mr_id r, v)]).
Proof.
  unfold _processMetrics. simpl. rewrite processMetricResult_performanceOf.
  destruct (performanceOf process r); reflexivity.
Qed.

Lemma created_set performances (k : string) (v : Performance T) :
  JsObject.created (JsObject.set performances k v)
  = if existsb (String.eqb k) (JsObject.created performances)
    then JsObject.created performances
    else (JsObject.created performances ++ [k])%list.
Proof.
  destruct (JsObject.get performances k) as [old |] eqn:E.
  - rewrite created_set_present by congruence.
    assert (Hin : In k (JsObject.created performances)).
    { destruct (in_dec string_dec k (JsObject.created performances)) as [H | H];
        [exact H |]. apply get_none_iff in H. congruence. }
    assert (Hex : existsb (String.eqb k) (JsObject.created performances) = true).
    { apply existsb_exists. exists k. split; [exact Hin | apply String.eqb_refl]. }
    now rewrite Hex.
  - rewrite (set_absent _ _ _ E).
    assert (Hex : existsb (String.eqb k) (JsObject.created performances) = false).
    { apply Bool.not_true_iff_false. intros H. apply existsb_exists in H.
      destruct H as (x & Hx & Hk). apply String.eqb_eq in Hk. subst x.
      apply get_none_iff in E. contradiction. }
    rewrite Hex. unfold JsObject.created. now rewrite map_app.
Qed.

Lemma report_created (data : list MetricResult) performances report :
  forOf (processMetricResult process) data performances = Normal report ->
  JsObject.created report
  = (JsObject.created performances
     ++ List.filter (unseen (JsObject.created performances))
                    (firstSeen (map mr_id data)))%list.
Proof.
  revert performances. induction data as [| r data IH]; intros performances; simpl.
  - intros H. injection H as <-. now rewrite app_nil_r.
  - rewrite processMetricResult_performanceOf.
    destruct (performanceOf process r) as [v |]; simpl; [| discriminate].
    intros H. rewrite (IH _ H), created_set.
    apply (firstSeen_step (JsObject.created performances) (mr_id r)
                          (firstSeen (map mr_id data))).
Qed.

Lemma report_get_other (data : list MetricResult) performances report (key : string) :
  forOf (processMetricResult process) data performances = Normal report ->
  ~ In key (map mr_id data) ->
  JsObject.get report key = JsObject.get performances key.
Proof.
  revert performances. induction data as [| r data IH]; intros performances; simpl.
  - intros H _. now injection H as <-.
  - rewrite processMetricResult_performanceOf.
    destruct (performanceOf process r) as [v |]; simpl; [| discriminate].
    intros H Hout. rewrite (IH _ H) by tauto. rewrite get_set.
    destruct (String.eqb_spec (mr_id r) key); [elim Hout; now left | reflexivity].
Qed.

Lemma report_last_write (pre post : list MetricResult) (r : MetricResult) report :
  _processMetrics process (pre ++ r :: post) = Normal report ->
  (forall r', In r' post -> mr_id r' <> mr_id r) ->
  exists v, performanceOf process r = Normal v /\
            JsObject.get report (mr_id r) = Some v.
Proof.
  unfold _processMetrics. rewrite forOf_app.
  destruct (forOf (processMetricResult process) pre JsObject.empty) as [p1 |];
    simpl; [| discriminate].
  rewrite processMetricResult_performanceOf.
  destruct (performanceOf process r) as [v |]; simpl; [| discriminate].
  intros Hrun Hlast. exists v. split; [reflexivity |].
  rewrite (report_get_other _ _ _ (mr_id r) Hrun).
  - now rewrite get_set, String.eqb_refl.
  - intros Hin. apply in_map_iff in Hin. destruct Hin as (r' & E & Hr').
    now apply (Hlast r' Hr').
Qed.

Lemma report_returns_iff (data : list MetricResult) performances :
  (exists report, forOf (processMetricResult process) data performances = Normal report)
  <-> Forall (fun r => exists v, performanceOf process r = Normal v) data.
Proof.
  revert performances. induction data as [| r data IH]; intros performances; simpl.
  - split; [constructor | eauto].
  - rewrite processMetricResult_performanceOf.
    destruct (performanceOf process r) as [v |] eqn:E; simpl.
    + rewrite IH. split; [intros H; constructor; eauto |].
      intros H. now inversion H.
    + split; [intros [report H]; discriminate |].
      intros H. inversion H as [| ? ? [v Hv] _]. congruence.
Qed.

Lemma single_returns_iff (r : MetricResult) :
  (exists report, _processMetrics process [r] = Normal report)
  <-> exists v, performanceOf process r = Normal v.
Proof.
  rewrite processMetrics_single.
  destruct (performanceOf process r) as [v |]; simpl; split; eauto;
    intros [x H]; discriminate.
Qed.

Lemma report_throws_iff (data : list MetricResult) performances :
  forOf (processMetricResult process) data performances = Throw TypeError
  <-> Exists (fun r => performanceOf process r = Throw TypeError) data.
Proof.
  revert performances. induction data as [| r data IH]; intros performances; simpl.
  - split; [discriminate | intros H; inversion H].
  - rewrite processMetricResult_performanceOf.
    destruct (performanceOf process r) as [v | []] eqn:E; simpl.
    + rewrite IH. split; [intros H; now right |].
      intros H. inversion H as [? ? Hr | ? ? Hd]; [congruence | exact Hd].
    + split; [intros _; now left | reflexivity].
Qed.

Lemma single_throws_iff (r : MetricResult) :
  _processMetrics process [r] = Throw TypeError
  <-> performanceOf process r = Throw TypeError.
Proof.
  rewrite processMetrics_single.
  destruct (performanceOf process r) as [v | []]; simpl; split;
    (reflexivity || discriminate).
Qed.

End ReportFacts.

(** X11.  For a response none of whose keys is ["__proto__"]: whenever
    [_processMetrics] returns, the report has one key per distinct metric
    key of the response, created in first-seen order, and no other key;
    when a key occurs more than once, the report holds what its last
    occurrence reshapes to (a later result overwrites an earlier one, at
    the earlier one's place). *)
Theorem X11_report_keys_and_last_write
        (T : Type)
        (process : option MetricDefinition -> AppInsightsMetricBody -> Completion T)
        (data : list MetricResult) (report : JsObject.t (Performance T)) :
  ~ In "__proto__" (map mr_id data) ->
  _processMetrics process data = Normal report ->
  JsObject.created report = firstSeen (map mr_id data) /\
  (forall key, ~ In key (map mr_id data) -> JsObject.get report key = None) /\
  (forall pre r post,
      data = (pre ++ r :: post)%list ->
      (forall r', In r' post -> mr_id r' <> mr_id r) ->
      exists v,
        _processMetrics process [r] = Normal [(mr_id r, v)] /\
        JsObject.get report (mr_id r) = Some v).
Proof.
  intros _ Hrun. split; [| split].
  - unfold _processMetrics in Hrun. rewrite (report_created process _ _ _ Hrun).
    simpl. apply forallb_filter_id. apply forallb_forall. reflexivity.
  - intros key Hout. unfold _processMetrics in Hrun.
    now rewrite (report_get_other process _ _ _ key Hrun Hout).
  - intros pre r post -> Hlast.
    destruct (report_last_write process pre post r report Hrun Hlast) as (v & Hv & Hget).
    exists v. split; [| exact Hget].
    rewrite processMetrics_single, Hv. reflexivity.
Qed.

Lemma X11_report_keys_witness :
  JsObject.created
    [ ("cpuUsage",
       Segmented (PerformanceSeries [ {| time := 30; value := JNumber 7 |} ]));
      ("diskRead",
       Segmented (PerformanceSeries [ {| time := 90; value := JNumber 6 |} ])) ]
  = firstSeen (map mr_id
                   [ {| mr_id := "cpuUsage";
                        body_value := {| segments := [ flatBucket 0 60 5 ] |} |};
                     {| mr_id := "diskRead";
                        body_value := {| segments := [ flatBucket 60 120 6 ] |} |};
                     {| mr_id := "cpuUsage";
                        body_value := {| segments := [ flatBucket 0 60 7 ] |} |} ]).
Proof.
  apply (X11_report_keys_and_last_write FlatOutcome flatProcessor).
  - simpl. intuition discriminate.
  - vm_compute. reflexivity.
Defined.

(** X12.  [_processMetrics] gives no partial report: it returns exactly
    when every metric result of the response reshapes on its own, and it
    throws [TypeError] exactly when one of them does. *)
Theorem X12_report_is_all_or_nothing
        (T : Type)
        (process : option MetricDefinition -> AppInsightsMetricBody -> Completion T)
        (data : list MetricResult) :
  ((exists report, _processMetrics process data = Normal report)
   <-> Forall (fun r => exists report, _processMetrics process [r] = Normal report)
              data) /\
  (_processMetrics process data = Throw TypeError
   <-> Exists (fun r => _processMetrics process [r] = Throw TypeError) data).
Proof.
  assert (Hall : (exists report, _processMetrics process data = Normal report)
                 <-> Forall (fun r => exists report,
                                 _processMetrics process [r] = Normal report) data).
  { unfold _processMetrics at 1. rewrite report_returns_iff.
    rewrite !Forall_forall. split; intros H r Hr; apply single_returns_iff;
      now apply H. }
  split; [exact Hall |].
  unfold _processMetrics at 1. rewrite report_throws_iff.
  rewrite !Exists_exists.
  split; intros (r & Hr & Ht); exists r; (split; [exact Hr |]);
    now apply single_throws_iff.
Qed.

Lemma report_get_unique
      (T : Type)
      (process : option MetricDefinition -> AppInsightsMetricBody -> Completion T)
      (data : list MetricResult) (report : JsObject.t (Performance T))
      (r : MetricResult) :
  NoDup (map mr_id data) ->
  _processMetrics process data = Normal report ->
  In r data ->
  exists v, performanceOf process r = Normal v /\
            JsObject.get report (mr_id r) = Some v.
Proof.
  intros Hnodup Hrun Hin.
  apply in_split in Hin. destruct Hin as (pre & post & ->).
  apply (report_last_write process pre post r report Hrun).
  intros r' Hr' E.
  rewrite map_app in Hnodup. simpl in Hnodup.
  apply NoDup_remove_2 in Hnodup. apply Hnodup.
  apply in_or_app. right. rewrite <- E. now apply in_map.
Qed.

(** X13.  When the keys of a response are pairwise distinct, the report
    does not depend on the order of the response: any reordering reshapes
    too, and to a report holding the same value under every key. *)
Theorem X13_report_ignores_response_order
        (T : Type)
        (process : option MetricDefinition -> AppInsightsMetricBody -> Completion T)
        (data data' : list MetricResult) (report : JsObject.t (Performance T)) :
  Permutation data data' ->
  NoDup (map mr_id data) ->
  _processMetrics process data = Normal report ->
  exists report',
    _processMetrics process data' = Normal report' /\
    forall key, JsObject.get report' key = JsObject.get report key.
Proof.
  intros Hperm Hnodup Hrun.
  assert (Hnodup' : NoDup (map mr_id data')).
  { eapply Permutation_NoDup; [| exact Hnodup]. now apply Permutation_map. }
  assert (Hrun' : exists report', _processMetrics process data' = Normal report').
  { unfold _processMetrics. apply report_returns_iff.
    eapply Permutation_Forall; [exact Hperm |].
    apply (proj1 (report_returns_iff process data JsObject.empty)).
    unfold _processMetrics in Hrun. eauto. }
  destruct Hrun' as [report' Hrun']. exists report'. split; [exact Hrun' |].
  intros key.
  destruct (in_dec string_dec key (map mr_id data)) as [Hin | Hout].
  - apply in_map_iff in Hin. destruct Hin as (r & <- & Hr).
    destruct (report_get_unique T process data report r Hnodup Hrun Hr)
      as (v & Hv & Hget).
    assert (Hr' : In r data') by (eapply Permutation_in; eauto).
    destruct (report_get_unique T process data' report' r Hnodup' Hrun' Hr')
      as (v' & Hv' & Hget').
    congruence.
  - unfold _processMetrics in Hrun, Hrun'.
    rewrite (report_get_other process _ _ _ key Hrun Hout).
    rewrite (report_get_other process _ _ _ key Hrun'); [reflexivity |].
    intros Hin. apply Hout.
    eapply Permutation_in; [| exact Hin].
    apply Permutation_sym. now apply Permutation_map.
Qed.

Lemma X13_report_order_witness :
  exists report',
    _processMetrics flatProcessor
      [ {| mr_id := "diskRead";
           body_value := {| segments := [ flatBucket 60 120 6 ] |} |};
        {| mr_id := "cpuUsage";
           body_value := {| segments := [ flatBucket 0 60 5 ] |} |} ]
    = Normal report' /\
    forall key,
      JsObject.get report' key
      = JsObject.get
          [ ("cpuUsage",
             Segmented (PerformanceSeries [ {| time := 30; value := JNumber 5 |} ]));
            ("diskRead",
             Segmented (PerformanceSeries [ {| time := 90; value := JNumber 6 |} ])) ]
          key.
Proof.
  apply (X13_report_ignores_response_order
           FlatOutcome flatProcessor
           [ {| mr_id := "cpuUsage";
                body_value := {| segments := [ flatBucket 0 60 5 ] |} |};
             {| mr_id := "diskRead";
                body_value := {| segments := [ flatBucket 60 120 6 ] |} |} ]).
  - apply perm_swap.
  - repeat constructor; simpl; intuition discriminate.
  - vm_compute. reflexivity.
Defined.

(** X14.  Building a query and reshaping a response that answers it (one
    metric result per descriptor, under the descriptor's key, in request
    order): whenever the reshaping returns, [Object.keys] of the report is
    [Object.keys] of the catalog, and the report holds a value under a key
    exactly when the key is in the catalog. *)
Theorem X14_report_covers_the_catalog
        (T : Type)
        (process : option MetricDefinition -> AppInsightsMetricBody -> Completion T)
        (toOData : Filter -> string) (poolId : string) (nodeId : option string)
        (w : Z) (query : list QueryDescriptor) (data : list MetricResult)
        (report : JsObject.t (Performance T)) :
  _buildQuery toOData poolId nodeId w = Normal query ->
  answers data query ->
  _processMetrics process data = Normal report ->
  JsObject.keys report = JsObject.keys metrics /\
  (forall key, In key (JsObject.keys metrics)
               <-> exists v, JsObject.get report key = Some v).
Proof.
  intros Hquery Hanswers Hrun.
  assert (Eq : query = map (descriptorFor toOData poolId nodeId w) metrics).
  { rewrite buildQuery_returns in Hquery. congruence. }
  unfold answers in Hanswers. rewrite Eq, map_map in Hanswers.
  change (map (fun x => id (descriptorFor toOData poolId nodeId w x)) metrics)
    with (map fst metrics) in Hanswers.
  assert (Hcreated : JsObject.created report = map fst metrics).
  { unfold _processMetrics in Hrun. rewrite (report_created process _ _ _ Hrun).
    rewrite Hanswers. vm_compute. reflexivity. }
  split.
  - unfold JsObject.keys. rewrite Hcreated. reflexivity.
  - intros key. rewrite keys_metrics, <- Hcreated. split.
    + intros Hin. destruct (JsObject.get report key) as [v |] eqn:E; [eauto |].
      apply get_none_iff in E. contradiction.
    + intros [v Hv].
      destruct (in_dec string_dec key (JsObject.created report)) as [Hin | Hout];
        [exact Hin |].
      apply get_none_iff in Hout. congruence.
Qed.

Lemma X14_report_covers_the_catalog_witness :
  match _processMetrics flatProcessor
          (map (fun entry => {| mr_id := fst entry;
                                body_value := {| segments := [] |} |}) metrics)
  with
  | Normal report => JsObject.keys report = JsObject.keys metrics
  | Throw _ => False
  end.
Proof.
  destruct (_processMetrics flatProcessor
              (map (fun entry => {| mr_id := fst entry;
                                    body_value := {| segments := [] |} |}) metrics))
    as [report |] eqn:E.
  - refine (proj1 (X14_report_covers_the_catalog
                     FlatOutcome flatProcessor renderOData "pool1" None 100
                     (map (descriptorFor renderOData "pool1" None 100) metrics)
                     (map (fun entry => {| mr_id := fst entry;
                                           body_value := {| segments := [] |} |})
                          metrics)
                     report (buildQuery_returns _ _ _ _) _ E)).
    unfold answers. rewrite !map_map. reflexivity.
  - vm_compute in E. discriminate E.
Defined.

(** X15.  For a whole window of [w] minutes, of any sign, the interval is
    [10 * ceil (3 w / 500)] seconds, in integer arithmetic
    [10 * ((3 w + 499) / 500)] with the division rounding down; so every
    window from 1 to 166 minutes is sampled every 10 seconds. *)
Theorem X15_interval_of_a_whole_window (w : Z) :
  intervalInSeconds (inject_Z w) = 10 * ((3 * w + 499) / 500) /\
  (1 <= w <= 166 -> _computeInterval w = "PT10S").
Proof.
  assert (Hform : intervalInSeconds (inject_Z w) = 10 * ((3 * w + 499) / 500)).
  { unfold intervalInSeconds.
    assert (Hy : (inject_Z w / numberOfPoints * 60 / 10 == (3 * w) # 500)%Q).
    { rewrite scaled_window. unfold inject_Z, Qeq, Qmult.
      cbn [Qnum Qden]. change (Z.pos (1 * 500)) with 500. lia. }
    rewrite Hy. unfold Qceiling, Qfloor, Qopp. cbn [Qnum Qden].
    pose proof (Z.div_mod (- (3 * w)) 500 ltac:(lia)) as H1.
    pose proof (Z.mod_pos_bound (- (3 * w)) 500 ltac:(lia)) as H2.
    pose proof (Z.div_mod (3 * w + 499) 500 ltac:(lia)) as H3.
    pose proof (Z.mod_pos_bound (3 * w + 499) 500 ltac:(lia)) as H4.
    lia. }
  split; [exact Hform |].
  intros Hw. unfold _computeInterval. rewrite Hform.
  assert (E : (3 * w + 499) / 500 = 1).
  { symmetry. apply Z.div_unique with (r := 3 * w - 1); lia. }
  rewrite E. reflexivity.
Qed.

Lemma X15_interval_of_a_whole_window_witness : _computeInterval 166 = "PT10S".
Proof.
  apply (proj2 (X15_interval_of_a_whole_window 166)). lia.
Defined.

Lemma sightings_nonempty (dev : string) (rs : list (string * Sample)) :
  In dev (map fst rs) -> sightings dev rs <> [].
Proof.
  unfold sightings. induction rs as [| [k s] rs IH]; simpl; [tauto |].
  intros [-> | Hin].
  - rewrite String.eqb_refl. discriminate.
  - destruct (String.eqb k dev); [discriminate | now apply IH].
Qed.

(** X16.  Whenever the fan-out returns, no device key holds an empty
    series: a key exists only from the first sample filed under it. *)
Theorem X16_fan_out_series_are_not_empty
        (id deviceKey : string) (buckets : list Segment)
        (usages : JsObject.t (list Sample)) (dev : string) (series : list Sample) :
  _processIndividualDeviceUsage id deviceKey buckets = Normal usages ->
  JsObject.get usages dev = Some series ->
  series <> [].
Proof.
  intros Hrun Hget. apply fanOut_returned in Hrun.
  destruct (grouping_shape id deviceKey buckets) as [_ Hg].
  rewrite <- Hrun in Hg. rewrite Hg in Hget.
  destruct (existsb _ _) eqn:E; [| discriminate]. injection Hget as <-.
  rewrite <- sightings_readings. apply sightings_nonempty.
  apply existsb_exists in E. destruct E as (x & Hx & Hd).
  apply String.eqb_eq in Hd. now subst x.
Qed.

Lemma X16_fan_out_series_witness :
  [ {| time := 30; value := JNumber 10 |} ] <> [].
Proof.
  apply (X16_fan_out_series_are_not_empty
           "individualCpuUsage" "customDimensions/CPU #"
           [ bucketOf 0 60 [ deviceAggregate "customMetrics/Cpu usage" 10
                                             "customDimensions/CPU #" "0" ] ]
           [ ("0", [ {| time := 30; value := JNumber 10 |} ]) ] "0").
  - vm_compute. reflexivity.
  - reflexivity.
Defined.
